(** * Transfer tracker: fee parsing, normalisation and summary statistics

    A shallow embedding of [src/data_fetcher.py] (class
    [TransferDataFetcher]): the fee parser [_parse_transfer_fee], the
    normaliser [process_transfer_data] and the summariser
    [generate_transfer_summary].

    Python values are an inductive type, Python exceptions are the error side
    of a small result monad, Python floats are IEEE-754 binary64 numbers
    ([spec_float] with 53 bits of precision), and the dictionaries the
    summariser returns are finite maps. *)

From Stdlib Require Import ZArith String Ascii List Bool Lia SpecFloat.
From stdpp Require Import gmap strings list sorting.

Open Scope string_scope.
Open Scope Z_scope.

(** ** Python: exceptions, values, strings, floats *)

Module Py.

Inductive exn := AttributeError | ValueError | TypeError | KeyError.

#[global] Instance exn_eq_dec : EqDecision exn.
Proof. solve_decision. Defined.

Inductive result (A : Type) :=
| Ok (a : A)
| Raise (e : exn).
Arguments Ok {A} a.
Arguments Raise {A} e.

Definition bind {A B} (m : result A) (k : A -> result B) : result B :=
  match m with
  | Ok a => k a
  | Raise e => Raise e
  end.

#[global] Instance result_bind : MBind result := fun A B k m => bind m k.

(** [try: m  except e: h] *)
Definition try_except {A} (m : result A) (e : exn) (h : result A) : result A :=
  match m with
  | Ok a => Ok a
  | Raise e' => if decide (e' = e) then h else Raise e'
  end.

(** Python [float]: binary64. *)
Definition float := spec_float.
Definition prec : Z := 53.
Definition emax : Z := 1024.

Definition fadd : float -> float -> float := SFadd prec emax.
Definition fdiv : float -> float -> float := SFdiv prec emax.
Definition flt : float -> float -> bool := SFltb.
Definition feq : float -> float -> bool := SFeqb.
Definition fle : float -> float -> bool := SFleb.

(** The float nearest to [m * 2^e]; [dyadic 15 0] is [15.0] and
    [dyadic 1 (-1)] is [0.5]. *)
Definition dyadic (m e : Z) : float := binary_normalize prec emax m e false.

(** [float(n)] for an [int] *)
Definition float_of_int (n : Z) : float := dyadic n 0.

Definition is_nan (f : float) : bool :=
  match f with S754_nan => true | _ => false end.

(** A calendar month, as [Timestamp.month] numbers it. *)
Inductive Month :=
| Jan | Feb | Mar | Apr | May | Jun | Jul | Aug | Sep | Oct | Nov | Dec.

Definition month_number (m : Month) : Z :=
  match m with
  | Jan => 1 | Feb => 2 | Mar => 3 | Apr => 4 | May => 5 | Jun => 6
  | Jul => 7 | Aug => 8 | Sep => 9 | Oct => 10 | Nov => 11 | Dec => 12
  end.

Record Timestamp := { ts_year : Z; ts_month : Month; ts_day : Z; ts_nanos : Z }.

(** Values: what [json] decoding yields ([None], [bool], [int], [float],
    [str], [list], [dict] with string keys, in document order), and the
    timestamp cells [pd.to_datetime] writes into a frame. *)
#[warnings="-register-all"] Inductive pyval :=
| PNone
| PBool (b : bool)
| PInt (n : Z)
| PFloat (f : float)
| PStr (s : string)
| PList (l : list pyval)
| PDict (d : list (string * pyval))
| PTimestamp (t : Timestamp)
| PNaT.

(** [not v] is true, Python's truth value testing. *)
Definition falsy (v : pyval) : bool :=
  match v with
  | PNone => true
  | PBool b => negb b
  | PInt n => n =? 0
  | PFloat f => match f with S754_zero _ => true | _ => false end
  | PStr s => match s with EmptyString => true | _ => false end
  | PList l => match l with nil => true | _ => false end
  | PDict d => match d with nil => true | _ => false end
  | PTimestamp _ => false
  | PNaT => false
  end.

(** Key lookup in a [dict]: the first binding of the key. *)
Fixpoint lookup_key (k : string) (d : list (string * pyval)) : option pyval :=
  match d with
  | nil => None
  | (k', v) :: d' => if String.eqb k k' then Some v else lookup_key k d'
  end.

(** [v.get(k, default)]: only a [dict] has the method. *)
Definition get (v : pyval) (k : string) (default : pyval) : result pyval :=
  match v with
  | PDict d => Ok (match lookup_key k d with Some x => x | None => default end)
  | _ => Raise AttributeError
  end.

(** *** [str] methods, on UTF-8 encoded text *)

Definition code (c : ascii) : nat := nat_of_ascii c.

Definition is_upper (c : ascii) : bool := (65 <=? code c)%nat && (code c <=? 90)%nat.
Definition is_digit (c : ascii) : bool := (48 <=? code c)%nat && (code c <=? 57)%nat.

Definition lower_char (c : ascii) : ascii :=
  if is_upper c then ascii_of_nat (code c + 32) else c.

(** [s.lower()] on the ASCII letters.  The full method also lowers letters
    outside ASCII; the only ones it sends into ASCII are U+0130 (to [i] and
    a combining dot) and U+212A (to [k]), and neither letter occurs in the
    words this program compares a lowered string with. *)
Fixpoint lower (s : string) : string :=
  match s with
  | EmptyString => EmptyString
  | String c s' => String (lower_char c) (lower s')
  end.

(** [s.replace(old, new)] for a non-empty [old]: leftmost, non-overlapping.
    [skip] counts the characters of a match still to be dropped. *)
Fixpoint replace_from (old new : string) (skip : nat) (s : string) : string :=
  match s with
  | EmptyString => EmptyString
  | String c s' =>
      match skip with
      | S k => replace_from old new k s'
      | O =>
          if String.prefix old s
          then new ++ replace_from old new (String.length old - 1)%nat s'
          else String c (replace_from old new 0 s')
      end
  end.

Definition replace (s old new : string) : string := replace_from old new 0 s.

(** [sub in s] *)
Fixpoint contains (sub s : string) : bool :=
  String.prefix sub s ||
  match s with
  | EmptyString => false
  | String _ s' => contains sub s'
  end.

(** [s in words] for a list of strings *)
Definition in_list (s : string) (words : list string) : bool :=
  existsb (String.eqb s) words.

(** *** [float(s)] for a [str]

    CPython strips the C-locale white space at both ends, checks and drops
    the underscores that group digits, and reads a decimal literal
    (sign, digits, fraction, exponent) or one of [inf], [infinity], [nan] in
    any case; anything left over is a [ValueError].  The literal is rounded
    to the nearest binary64 number, ties to even.  Text with characters
    outside ASCII is read as its bytes: CPython first maps Unicode decimal
    digits and spaces to their ASCII counterparts, which is not modelled. *)

Definition is_space (c : ascii) : bool :=
  ((9 <=? code c)%nat && (code c <=? 13)%nat) || (code c =? 32)%nat.

Fixpoint lstrip (s : string) : string :=
  match s with
  | EmptyString => EmptyString
  | String c s' => if is_space c then lstrip s' else s
  end.

Fixpoint rstrip (s : string) : string :=
  match s with
  | EmptyString => EmptyString
  | String c s' =>
      match rstrip s' with
      | EmptyString => if is_space c then EmptyString else String c EmptyString
      | r => String c r
      end
  end.

Definition strip (s : string) : string := rstrip (lstrip s).

Definition is_underscore (c : ascii) : bool := (code c =? 95)%nat.

(** An underscore stands only between two digits; [prev] is the character
    before [s], if any. *)
Fixpoint underscores_ok (prev : option ascii) (s : string) : bool :=
  match s with
  | EmptyString =>
      match prev with Some p => negb (is_underscore p) | None => true end
  | String c s' =>
      (if is_underscore c
       then match prev with Some p => is_digit p | None => false end
       else match prev with
            | Some p => negb (is_underscore p) || is_digit c
            | None => true
            end)
      && underscores_ok (Some c) s'
  end.

Fixpoint drop_underscores (s : string) : string :=
  match s with
  | EmptyString => EmptyString
  | String c s' =>
      if is_underscore c then drop_underscores s' else String c (drop_underscores s')
  end.

(** Reads a run of digits: the number read so far, how many digits were
    read, and the rest. *)
Fixpoint scan_digits (acc count : Z) (s : string) : Z * Z * string :=
  match s with
  | EmptyString => (acc, count, s)
  | String c s' =>
      if is_digit c
      then scan_digits (10 * acc + Z.of_nat (code c - 48)) (count + 1) s'
      else (acc, count, s)
  end.

(** An optional sign: [true] for a minus. *)
Definition scan_sign (s : string) : bool * string :=
  match s with
  | String c s' =>
      if (code c =? 45)%nat then (true, s')
      else if (code c =? 43)%nat then (false, s')
      else (false, s)
  | EmptyString => (false, s)
  end.

(** The binary64 number nearest to [(-1)^neg * m * 10^e], for [0 <= m]. *)
Definition decimal_to_float (neg : bool) (m e : Z) : float :=
  match m with
  | Zpos p =>
      if 0 <=? e
      then binary_normalize prec emax ((if neg then - m else m) * 10 ^ e) 0 neg
      else SFdiv prec emax (S754_finite neg p 0)
                            (S754_finite false (Z.to_pos (10 ^ (- e))) 0)
  | _ => S754_zero neg
  end.

(** Digits, an optional fraction and an optional exponent, up to the end of
    the text. *)
Definition scan_decimal (neg : bool) (s : string) : option float :=
  let '(i, ni, r1) := scan_digits 0 0 s in
  let '(m, nf, r2) :=
    match r1 with
    | String "." r => scan_digits i 0 r
    | _ => (i, 0, r1)
    end in
  if ni + nf =? 0 then None
  else
    match r2 with
    | EmptyString => Some (decimal_to_float neg m (- nf))
    | String c r =>
        if (code c =? 101)%nat || (code c =? 69)%nat
        then
          let '(eneg, r') := scan_sign r in
          let '(ev, ne, r3) := scan_digits 0 0 r' in
          if ne =? 0 then None
          else
            match r3 with
            | EmptyString =>
                Some (decimal_to_float neg m ((if eneg then - ev else ev) - nf))
            | _ => None
            end
        else None
    end.

Definition scan_inf_or_nan (neg : bool) (s : string) : option float :=
  let w := lower s in
  if String.eqb w "inf" || String.eqb w "infinity" then Some (S754_infinity neg)
  else if String.eqb w "nan" then Some S754_nan
  else None.

Definition float_of_str (s : string) : result float :=
  let t := strip s in
  if underscores_ok None t
  then
    let '(neg, body) := scan_sign (drop_underscores t) in
    match scan_decimal neg body with
    | Some f => Ok f
    | None =>
        match scan_inf_or_nan neg body with
        | Some f => Ok f
        | None => Raise ValueError
        end
    end
  else Raise ValueError.

End Py.

(** ** pandas: the operations the fetcher calls

    A float column is a list of floats whose null is NaN.  Sums add from left
    to right; the order and the compensation pandas uses inside a reduction
    are not modelled, and where every partial sum is exact they do not
    matter. *)

Module Pandas.
Import Py.

Definition isna (x : float) : bool := is_nan x.

Definition dropna (col : list float) : list float :=
  filter (fun x => negb (isna x) = true) col.

(** [col.sum()]: nulls skipped, [0.0] when nothing is left *)
Definition sum (col : list float) : float :=
  fold_left fadd (dropna col) (S754_zero false).

(** [col.count()] *)
Definition count (col : list float) : nat := length (dropna col).

(** [col.mean()]: NaN when every entry is null *)
Definition mean (col : list float) : float :=
  fdiv (sum col) (float_of_int (Z.of_nat (count col))).

Fixpoint insert_asc (x : float) (l : list float) : list float :=
  match l with
  | [] => [x]
  | y :: l' => if flt y x then y :: insert_asc x l' else x :: l
  end.

Definition sort_asc (col : list float) : list float :=
  foldr insert_asc [] col.

(** [col.median()] *)
Definition median (col : list float) : float :=
  let v := sort_asc (dropna col) in
  let n := length v in
  match n with
  | O => S754_nan
  | _ =>
      if Nat.even n
      then fdiv (fadd (nth (n / 2 - 1) v S754_nan) (nth (n / 2) v S754_nan))
                (float_of_int 2)
      else nth (n / 2) v S754_nan
  end.

(** The running maximum of a scan: position and value of the first largest
    entry that is not null. *)
Fixpoint argmax_from (i : nat) (best : option (nat * float)) (col : list float)
  : option (nat * float) :=
  match col with
  | [] => best
  | x :: col' =>
      argmax_from (S i)
        (if isna x then best
         else match best with
              | None => Some (i, x)
              | Some (_, b) => if flt b x then Some (i, x) else best
              end)
        col'
  end.

(** [col.idxmax()] on a frame with the default index: the first position of
    the maximum; there is none in an empty or all-null column. *)
Definition idxmax (col : list float) : result nat :=
  match argmax_from 0 None col with
  | Some (i, _) => Ok i
  | None => Raise ValueError
  end.

(** [col.max()]: NaN when every entry is null *)
Definition max (col : list float) : float :=
  match fold_left
          (fun acc x =>
             if isna x then acc
             else match acc with
                  | None => Some x
                  | Some b => if flt b x then Some x else acc
                  end)
          col None with
  | Some m => m
  | None => S754_nan
  end.

(** [df.loc[i, column]] *)
Definition loc {R A} (df : list R) (i : nat) (column : R -> A) : result A :=
  match df !! i with
  | Some r => Ok (column r)
  | None => Raise KeyError
  end.

Section Grouping.
Context {R K : Type} `{EqDecision K}.
Variable leb : K -> K -> bool.

Fixpoint insert_key (k : K) (l : list K) : list K :=
  match l with
  | [] => [k]
  | k' :: l' =>
      if decide (k = k') then l
      else if leb k k' then k :: l
      else k' :: insert_key k l'
  end.

(** The distinct keys of a column, sorted; a null key is dropped. *)
Definition group_keys (keys : list (option K)) : list K :=
  foldr (fun o acc => match o with Some k => insert_key k acc | None => acc end)
        [] keys.

(** [df.groupby(key)[value].sum()] *)
Definition groupby_sum (key : R -> option K) (value : R -> float) (df : list R)
  : list (K * float) :=
  map (fun k =>
         (k, sum (map value
                      (filter (fun r => bool_decide (key r = Some k) = true) df))))
      (group_keys (map key df)).

End Grouping.

Section Ranking.
Context {K : Type}.

Fixpoint insert_desc (x : K * float) (l : list (K * float)) : list (K * float) :=
  match l with
  | [] => [x]
  | y :: l' => if flt (snd x) (snd y) then y :: insert_desc x l' else x :: l
  end.

(** [s.nlargest(n)]: nulls dropped, largest first, equal values in the order
    they had. *)
Definition nlargest (n : nat) (s : list (K * float)) : list (K * float) :=
  take n (foldr insert_desc []
                (filter (fun kv => negb (isna (snd kv)) = true) s)).

End Ranking.

Fixpoint bump (k : string) (l : list (string * nat)) : list (string * nat) :=
  match l with
  | [] => [(k, 1%nat)]
  | (k', c) :: l' => if String.eqb k k' then (k', S c) :: l' else (k', c) :: bump k l'
  end.

Fixpoint insert_count (x : string * nat) (l : list (string * nat))
  : list (string * nat) :=
  match l with
  | [] => [x]
  | y :: l' => if (snd x <? snd y)%nat then y :: insert_count x l' else x :: l
  end.

(** [col.value_counts()]: the most frequent value first *)
Definition value_counts (col : list string) : list (string * nat) :=
  foldr insert_count [] (fold_left (fun acc k => bump k acc) col []).

(** [s.to_dict()] *)
Definition to_dict {K V} `{Countable K} (s : list (K * V)) : gmap K V :=
  list_to_map s.

(** What [pd.to_numeric] reads in a cell. *)
Inductive num :=
| NInt (n : Z)
| NFloat (f : float).

(** The readers of text that pandas brings: how a cell is read as a point
    in time and how a string is read as a number.  Each answers [None] where
    pandas fails to parse. *)
Record readers := {
  datetime_of : pyval -> option Timestamp;
  number_of_str : string -> option num
}.

(** One cell under [pd.to_numeric(..., errors='coerce')]: [None] is null.  A
    [bool] reads as 0 or 1; integers are unbounded here. *)
Definition numeric_cell (rd : readers) (v : pyval) : option num :=
  match v with
  | PBool b => Some (NInt (if b then 1 else 0))
  | PInt n => Some (NInt n)
  | PFloat f => if is_nan f then None else Some (NFloat f)
  | PStr s => number_of_str rd s
  | _ => None
  end.

Definition is_int_cell (c : option num) : bool :=
  match c with Some (NInt _) => true | _ => false end.

Definition float_cell (c : option num) : float :=
  match c with
  | Some (NInt n) => float_of_int n
  | Some (NFloat f) => f
  | None => S754_nan
  end.

(** [pd.to_numeric(col, errors='coerce')]: an integer column when every cell
    reads as an integer, a float column with NaN for null otherwise. *)
Definition to_numeric (rd : readers) (col : list pyval) : list pyval :=
  let cells := map (numeric_cell rd) col in
  if forallb is_int_cell cells
  then map (fun c => match c with Some (NInt n) => PInt n | _ => PNone end) cells
  else map (fun c => PFloat (float_cell c)) cells.

(** [pd.to_datetime(col, errors='coerce')]: NaT where the cell does not parse *)
Definition to_datetime (rd : readers) (col : list pyval) : list pyval :=
  map (fun v => match datetime_of rd v with
                | Some t => PTimestamp t
                | None => PNaT
                end) col.

(** A frame built from a list of records: [df[name]] and [df[name] = col]. *)
Definition column (name : string) (df : list (list (string * pyval))) : list pyval :=
  map (fun r => default PNone (lookup_key name r)) df.

Definition set_key (name : string) (v : pyval) (r : list (string * pyval))
  : list (string * pyval) :=
  map (fun kv => if String.eqb (fst kv) name then (fst kv, v) else kv) r.

Definition assign (name : string) (col : list pyval)
  (df : list (list (string * pyval))) : list (list (string * pyval)) :=
  zip_with (fun r v => set_key name v r) df col.

End Pandas.

(** ** The fetcher *)

Module TransferDataFetcher.
Import Py Pandas.

Definition no_fee_words : list string := ["free"; "free transfer"; "loan"; "-"].

(** Currency symbols and spaces removed. *)
Definition fee_clean (fee_string : string) : string :=
  replace (replace (replace (replace fee_string "€" "") "£" "") "$" "") " " "".

(** [_parse_transfer_fee]: the fee in millions.  The argument is whatever the
    raw record holds under ['fee']; [lower] is a method of [str] only. *)
Definition _parse_transfer_fee (fee_string : pyval) : result float :=
  if falsy fee_string then Ok (S754_zero false)
  else
    match fee_string with
    | PStr s =>
        if in_list (lower s) no_fee_words then Ok (S754_zero false)
        else
          let c := fee_clean s in
          try_except
            (if contains "M" c then float_of_str (replace c "M" "")
             else if contains "K" c then
               bind (float_of_str (replace c "K" ""))
                    (fun x => Ok (fdiv x (float_of_int 1000)))
             else
               bind (float_of_str c)
                    (fun x => Ok (fdiv x (float_of_int 1000000))))
            ValueError
            (Ok (S754_zero false))
    | _ => Raise AttributeError
    end.

(** [transfer.get(outer, {}).get(inner, default)] *)
Definition get2 (transfer : pyval) (outer inner : string) (default : pyval)
  : result pyval :=
  sub ← get transfer outer (PDict []);
  get sub inner default.

(** The record the loop of [process_transfer_data] builds for one raw
    transfer: a [dict] whose entries are evaluated in the order written. *)
Definition record_of (transfer : pyval) : result (list (string * pyval)) :=
  player_id ← get2 transfer "player" "id" (PStr "");
  player_name ← get2 transfer "player" "name" (PStr "");
  player_age ← get2 transfer "player" "age" (PInt 0);
  player_position ← get2 transfer "player" "position" (PStr "");
  player_nationality ← get2 transfer "player" "nationality" (PStr "");
  from_club_id ← get2 transfer "from_club" "id" (PStr "");
  from_club_name ← get2 transfer "from_club" "name" (PStr "");
  from_club_league ← get2 transfer "from_club" "league" (PStr "");
  to_club_id ← get2 transfer "to_club" "id" (PStr "");
  to_club_name ← get2 transfer "to_club" "name" (PStr "");
  to_club_league ← get2 transfer "to_club" "league" (PStr "");
  fee ← get transfer "fee" (PStr "");
  transfer_fee ← _parse_transfer_fee fee;
  transfer_fee_currency ← get transfer "fee_currency" (PStr "EUR");
  transfer_date ← get transfer "date" (PStr "");
  transfer_type ← get transfer "type" (PStr "");
  contract_duration ← get transfer "contract_duration" (PStr "");
  season ← get transfer "season" (PStr "");
  market_value ← get2 transfer "player" "market_value" (PInt 0);
  Ok [ ("player_id", player_id);
       ("player_name", player_name);
       ("player_age", player_age);
       ("player_position", player_position);
       ("player_nationality", player_nationality);
       ("from_club_id", from_club_id);
       ("from_club_name", from_club_name);
       ("from_club_league", from_club_league);
       ("to_club_id", to_club_id);
       ("to_club_name", to_club_name);
       ("to_club_league", to_club_league);
       ("transfer_fee", PFloat transfer_fee);
       ("transfer_fee_currency", transfer_fee_currency);
       ("transfer_date", transfer_date);
       ("transfer_type", transfer_type);
       ("contract_duration", contract_duration);
       ("season", season);
       ("market_value", market_value) ].

(** The [for] loop: one record per transfer, in order; the first exception
    ends it. *)
Fixpoint records_of (transfers : list pyval)
  : result (list (list (string * pyval))) :=
  match transfers with
  | [] => Ok []
  | transfer :: rest =>
      record ← record_of transfer;
      processed_data ← records_of rest;
      Ok (record :: processed_data)
  end.

(** The data type conversions, column by column. *)
Definition convert (rd : readers) (df : list (list (string * pyval)))
  : list (list (string * pyval)) :=
  let df := assign "transfer_date" (to_datetime rd (column "transfer_date" df)) df in
  let df := assign "player_age" (to_numeric rd (column "player_age" df)) df in
  let df := assign "transfer_fee" (to_numeric rd (column "transfer_fee" df)) df in
  assign "market_value" (to_numeric rd (column "market_value" df)) df.

(** [process_transfer_data]: the frame as the list of its rows; the empty
    frame is the empty list. *)
Definition process_transfer_data (rd : readers) (transfers : list pyval)
  : result (list (list (string * pyval))) :=
  match transfers with
  | [] => Ok []
  | _ =>
      processed_data ← records_of transfers;
      Ok (match processed_data with
          | [] => []
          | _ => convert rd processed_data
          end)
  end.


(** *** The summariser

    It reads a frame whose text columns hold strings, whose fee column holds
    floats (NaN for null) and whose date column holds timestamps ([None] for
    NaT): a row of such a frame is a [FlatTransfer].  Such a frame has the
    column [transfer_date], so the month grouping is always the grouped
    sum. *)

Record FlatTransfer := {
  player_id : string;
  player_name : string;
  player_age : float;
  player_position : string;
  player_nationality : string;
  from_club_id : string;
  from_club_name : string;
  from_club_league : string;
  to_club_id : string;
  to_club_name : string;
  to_club_league : string;
  transfer_fee : float;
  transfer_fee_currency : string;
  transfer_date : option Timestamp;
  transfer_type : string;
  contract_duration : string;
  season : string;
  market_value : float
}.

Record MostExpensive := {
  player : string;
  fee : float;
  from_club : string;
  to_club : string
}.

Record Summary := {
  total_transfers : nat;
  total_spending : float;
  average_fee : float;
  median_fee : float;
  most_expensive_transfer : MostExpensive;
  transfers_by_position : gmap string nat;
  transfers_by_month : gmap Z float;
  top_spending_clubs : gmap string float;
  top_selling_clubs : gmap string float
}.

(** What [generate_transfer_summary] returns: [{}] or the full dictionary. *)
Inductive Report :=
| EmptyReport
| FullReport (summary : Summary).

(** [df['transfer_date'].dt.month] *)
Definition month_of (r : FlatTransfer) : option Z :=
  month_number <$> (ts_month <$> transfer_date r).

(** [df.loc[df['transfer_fee'].idxmax(), column] if not
    df['transfer_fee'].isna().all() else ''] *)
Definition at_idxmax (df : list FlatTransfer) (column : FlatTransfer -> string)
  : result string :=
  if negb (forallb isna (map transfer_fee df))
  then i ← idxmax (map transfer_fee df); loc df i column
  else Ok "".

Definition generate_transfer_summary (df : list FlatTransfer) : result Report :=
  match df with
  | [] => Ok EmptyReport
  | _ =>
      let fees := map transfer_fee df in
      p ← at_idxmax df player_name;
      f ← at_idxmax df from_club_name;
      t ← at_idxmax df to_club_name;
      Ok (FullReport
            {| total_transfers := length df;
               total_spending := sum fees;
               average_fee := mean fees;
               median_fee := median fees;
               most_expensive_transfer :=
                 {| player := p; fee := max fees; from_club := f; to_club := t |};
               transfers_by_position :=
                 to_dict (value_counts (map player_position df));
               transfers_by_month :=
                 to_dict (groupby_sum Z.leb month_of transfer_fee df);
               top_spending_clubs :=
                 to_dict (nlargest 10
                            (groupby_sum String.leb
                               (fun r => Some (to_club_name r)) transfer_fee df));
               top_selling_clubs :=
                 to_dict (nlargest 10
                            (groupby_sum String.leb
                               (fun r => Some (from_club_name r)) transfer_fee df))
            |})
  end.

End TransferDataFetcher.

(** ** The requests the fetcher sends

    [requests] is modelled by what a call does: a [Session.get] either
    returns a response or raises, an exception of the [RequestException]
    family or another one; a response has a status code and a body that
    [json()] decodes or fails on. *)

Module Requests.
Import Py.

Inductive raised :=
| RequestException
| Other (e : exn).

Inductive outcome (A : Type) :=
| Returned (a : A)
| Failed (r : raised).
Arguments Returned {A} a.
Arguments Failed {A} r.

#[global] Instance outcome_bind : MBind outcome :=
  fun A B k m => match m with Returned a => k a | Failed r => Failed r end.

(** An exception of plain Python code, as it leaves a call. *)
Definition lift {A} (m : result A) : outcome A :=
  match m with
  | Ok a => Returned a
  | Raise e => Failed (Other e)
  end.

Record Response := {
  status_code : Z;
  json : outcome pyval
}.

(** [response.raise_for_status()]: an [HTTPError] for a 4xx or 5xx status *)
Definition raise_for_status (response : Response) : outcome unit :=
  if (400 <=? status_code response) && (status_code response <? 600)
  then Failed RequestException
  else Returned tt.

(** [try: m  except requests.exceptions.RequestException: h] *)
Definition except_request {A} (m h : outcome A) : outcome A :=
  match m with
  | Failed RequestException => h
  | _ => m
  end.

(** [session.get(url, params=params, timeout=timeout)] *)
Definition Session : Type :=
  string -> option (list (string * string)) -> Z -> outcome Response.

End Requests.

(** The methods of the fetcher that call the API, over a session and the
    base address the constructor sets. *)

Module Network.
Import Py Requests.

Definition base_url : string := "https://transfermarkt-api.vercel.app".

Definition fetch_transfers (session : Session) (league_id season : string)
  : outcome pyval :=
  except_request
    (let url := (base_url ++ "/transfers")%string in
     let params := [("league_id", league_id); ("season", season)] in
     response ← session url (Some params) 30;
     _ ← raise_for_status response;
     data ← json response;
     lift (get data "transfers" (PList [])))
    (Returned (PList [])).

Definition fetch_player_details (session : Session) (player_id : string)
  : outcome pyval :=
  except_request
    (let url := (base_url ++ "/players/" ++ player_id)%string in
     response ← session url None 30;
     _ ← raise_for_status response;
     json response)
    (Returned (PDict [])).

End Network.

(** ** Notions the statements use *)

Module Notions.
Import Py Pandas TransferDataFetcher.

(** The text [_parse_transfer_fee] hands to [float]: the cleaned fee without
    its [M] or [K]. *)
Definition float_argument (fee_string : string) : string :=
  let c := fee_clean fee_string in
  if contains "M" c then replace c "M" ""
  else if contains "K" c then replace c "K" ""
  else c.

(** The fee string is one of the markers of a transfer without a fee. *)
Definition no_fee (fee_string : string) : bool :=
  falsy (PStr fee_string) || in_list (lower fee_string) no_fee_words.


(** The entry under [k] is absent or a [dict]. *)
Definition absent_or_dict (k : string) (d : list (string * pyval)) : bool :=
  match lookup_key k d with
  | None | Some (PDict _) => true
  | Some _ => false
  end.

(** The entry under ['fee'] is absent, false in a condition, or a string. *)
Definition fee_readable (d : list (string * pyval)) : bool :=
  match lookup_key "fee" d with
  | None | Some (PStr _) => true
  | Some v => falsy v
  end.

(** A raw record the normaliser's lookups go through. *)
Definition well_shaped (transfer : pyval) : bool :=
  match transfer with
  | PDict d =>
      absent_or_dict "player" d && absent_or_dict "from_club" d
      && absent_or_dict "to_club" d && fee_readable d
  | _ => false
  end.


(** What [transfer.get(outer, {}).get(inner, default)] finds in a record
    whose entry under [outer] is absent or a [dict]. *)
Definition nested (d : list (string * pyval)) (outer inner : string)
  (dflt : pyval) : pyval :=
  match lookup_key outer d with
  | Some (PDict sub) => default dflt (lookup_key inner sub)
  | _ => dflt
  end.

(** What [transfer.get(k, default)] finds. *)
Definition entry (d : list (string * pyval)) (k : string) (dflt : pyval) : pyval :=
  default dflt (lookup_key k d).

(** The record of a well shaped raw transfer [d] whose fee parses to [f]. *)
Definition flat_record (d : list (string * pyval)) (f : float)
  : list (string * pyval) :=
  [ ("player_id", nested d "player" "id" (PStr ""));
    ("player_name", nested d "player" "name" (PStr ""));
    ("player_age", nested d "player" "age" (PInt 0));
    ("player_position", nested d "player" "position" (PStr ""));
    ("player_nationality", nested d "player" "nationality" (PStr ""));
    ("from_club_id", nested d "from_club" "id" (PStr ""));
    ("from_club_name", nested d "from_club" "name" (PStr ""));
    ("from_club_league", nested d "from_club" "league" (PStr ""));
    ("to_club_id", nested d "to_club" "id" (PStr ""));
    ("to_club_name", nested d "to_club" "name" (PStr ""));
    ("to_club_league", nested d "to_club" "league" (PStr ""));
    ("transfer_fee", PFloat f);
    ("transfer_fee_currency", entry d "fee_currency" (PStr "EUR"));
    ("transfer_date", entry d "date" (PStr ""));
    ("transfer_type", entry d "type" (PStr ""));
    ("contract_duration", entry d "contract_duration" (PStr ""));
    ("season", entry d "season" (PStr ""));
    ("market_value", nested d "player" "market_value" (PInt 0)) ].

(** Readers that parse nothing, for statements that do not depend on what
    pandas makes of a text. *)
Definition no_readers : readers :=
  {| datetime_of := fun _ => None; number_of_str := fun _ => None |}.

(** A row with a name, two clubs, a fee and a date, the other columns blank. *)
Definition row (name from_name to_name : string) (f : float)
  (date : option Timestamp) : FlatTransfer :=
  {| player_id := ""; player_name := name; player_age := S754_nan;
     player_position := ""; player_nationality := "";
     from_club_id := ""; from_club_name := from_name; from_club_league := "";
     to_club_id := ""; to_club_name := to_name; to_club_league := "";
     transfer_fee := f; transfer_fee_currency := "EUR";
     transfer_date := date; transfer_type := ""; contract_duration := "";
     season := ""; market_value := S754_nan |}.

(** Position [i] holds [b], the first largest entry of [col] that is not
    null. *)
Definition is_argmax (col : list float) (i : nat) (b : float) : Prop :=
  col !! i = Some b
  /\ isna b = false
  /\ (forall j x, col !! j = Some x -> isna x = false -> fle x b = true)
  /\ (forall j x, (j < i)%nat -> col !! j = Some x -> isna x = false ->
                  flt x b = true).

(** What a scan of the column [pre] has found. *)
Definition scanned (pre : list float) (best : option (nat * float)) : Prop :=
  match best with
  | None => Forall (fun x => isna x = true) pre
  | Some (i, b) => is_argmax pre i b
  end.

(** The summary of a frame, given the three names of its most expensive
    transfer. *)
Definition summary_with (df : list FlatTransfer) (p f t : string) : Summary :=
  let fees := map transfer_fee df in
  {| total_transfers := length df;
     total_spending := sum fees;
     average_fee := mean fees;
     median_fee := median fees;
     most_expensive_transfer :=
       {| player := p; fee := max fees; from_club := f; to_club := t |};
     transfers_by_position := to_dict (value_counts (map player_position df));
     transfers_by_month := to_dict (groupby_sum Z.leb month_of transfer_fee df);
     top_spending_clubs :=
       to_dict (nlargest 10
                  (groupby_sum String.leb
                     (fun r => Some (to_club_name r)) transfer_fee df));
     top_selling_clubs :=
       to_dict (nlargest 10
                  (groupby_sum String.leb
                     (fun r => Some (from_club_name r)) transfer_fee df)) |}.



(** The rows of a frame with position [p]. *)
Definition position_rows (p : string) (df : list FlatTransfer) : list FlatTransfer :=
  filter (fun r => player_position r = p) df.


(** Every character of a string passes a test. *)
Fixpoint all_chars (P : ascii -> bool) (s : string) : bool :=
  match s with
  | EmptyString => true
  | String c s' => P c && all_chars P s'
  end.

(** The characters a text [float] accepts can be made of: digits, signs,
    the point, the exponent letter, the underscore, white space, and the
    letters of [infinity] and [nan] in either case. *)
Definition numeric_char (c : ascii) : bool :=
  is_digit c || is_space c || is_underscore c
  || existsb (Ascii.eqb c)
       (list_ascii_of_string "+-.eEinftyaINFTYA").

(** The request went through: a response came back and its status is no
    error. *)
Definition answered (reply : Requests.outcome Requests.Response)
  (response : Requests.Response) : Prop :=
  reply = Requests.Returned response
  /\ Requests.raise_for_status response = Requests.Returned tt.

(** The request failed as [requests] reports failures: the call raised, the
    status is 4xx or 5xx, or the body does not decode. *)
Definition request_failed (reply : Requests.outcome Requests.Response) : Prop :=
  reply = Requests.Failed Requests.RequestException
  \/ exists response,
       reply = Requests.Returned response
       /\ (Requests.raise_for_status response
           = Requests.Failed Requests.RequestException
           \/ Requests.json response = Requests.Failed Requests.RequestException).

End Notions.

Import Py Pandas TransferDataFetcher Notions.

(** ** The fee parser *)

Lemma float_of_str_raises (s : string) (e : exn) :
  float_of_str s = Raise e -> e = ValueError.
Proof.
  unfold float_of_str.
  destruct (underscores_ok None (strip s)); [| congruence].
  destruct (scan_sign _) as [neg body].
  destruct (scan_decimal neg body); [congruence |].
  destruct (scan_inf_or_nan neg body); congruence.
Qed.

(** A [try] around [float] and a division catches all there is to catch. *)
Lemma try_float_total (s : string) (k : float -> float) :
  exists f,
    try_except (bind (float_of_str s) (fun x => Ok (k x))) ValueError
               (Ok (S754_zero false)) = Ok f.
Proof.
  destruct (float_of_str s) as [x | e] eqn:E; cbn.
  - eauto.
  - apply float_of_str_raises in E as ->. cbn. eauto.
Qed.

Lemma parse_fee_unfold (s : string) :
  _parse_transfer_fee (PStr s) =
  if no_fee s then Ok (S754_zero false)
  else
    try_except
      (bind (float_of_str (float_argument s))
            (fun x =>
               Ok (if contains "M" (fee_clean s) then x
                   else if contains "K" (fee_clean s)
                        then fdiv x (float_of_int 1000)
                        else fdiv x (float_of_int 1000000))))
      ValueError (Ok (S754_zero false)).
Proof.
  unfold _parse_transfer_fee, no_fee, float_argument.
  destruct (falsy (PStr s)); [reflexivity |]. cbn [orb].
  destruct (in_list (lower s) no_fee_words); [reflexivity |].
  destruct (contains "M" (fee_clean s)).
  - destruct (float_of_str _); reflexivity.
  - destruct (contains "K" (fee_clean s)); reflexivity.
Qed.

Lemma parse_fee_str_total (s : string) :
  exists f, _parse_transfer_fee (PStr s) = Ok f.
Proof.
  rewrite parse_fee_unfold.
  destruct (no_fee s); [eauto |].
  apply try_float_total.
Qed.

(** C1: the fee parser on the six listed inputs, and for every string it
    returns a float, which is 0.0 whenever [float] rejects the cleaned
    remainder. *)
Theorem fee_parser_examples_and_degradation :
  _parse_transfer_fee (PStr "€100M") = Ok (dyadic 100 0)
  /\ _parse_transfer_fee (PStr "500K") = Ok (dyadic 1 (-1))
  /\ _parse_transfer_fee (PStr "500000") = Ok (dyadic 1 (-1))
  /\ _parse_transfer_fee (PStr "Free transfer") = Ok (S754_zero false)
  /\ _parse_transfer_fee (PStr "garbage") = Ok (S754_zero false)
  /\ _parse_transfer_fee (PStr "") = Ok (S754_zero false)
  /\ (forall s, exists f, _parse_transfer_fee (PStr s) = Ok f)
  /\ (forall s, float_of_str (float_argument s) = Raise ValueError ->
                _parse_transfer_fee (PStr s) = Ok (S754_zero false)).
Proof.
  repeat match goal with |- _ = _ /\ _ => split; [vm_compute; reflexivity |] end.
  split; [exact parse_fee_str_total |].
  intros s E. rewrite parse_fee_unfold, E.
  destruct (no_fee s); reflexivity.
Qed.

Lemma fee_parser_degradation_witness :
  float_of_str (float_argument "12abcM") = Raise ValueError
  /\ _parse_transfer_fee (PStr "12abcM") = Ok (S754_zero false).
Proof.
  split; [vm_compute; reflexivity |].
  apply fee_parser_examples_and_degradation. vm_compute; reflexivity.
Defined.

(** C10: a minus sign inside a priced fee survives the cleaning, so the
    parsed fee of [€-5M] is -5.0; the marker [-] counts only as the whole
    string. *)
Theorem fee_parser_negative_fee :
  _parse_transfer_fee (PStr "€-5M") = Ok (dyadic (-5) 0)
  /\ flt (dyadic (-5) 0) (S754_zero false) = true
  /\ no_fee "€-5M" = false
  /\ float_argument "€-5M" = "-5"
  /\ no_fee "-" = true.
Proof.
  repeat split; vm_compute; reflexivity.
Qed.

(** ** Rounding never invents a NaN *)












Lemma Ok_inj {A} (a b : A) : Ok a = Ok b -> a = b.
Proof. congruence. Qed.



(** ** The normaliser *)

Lemma get2_dict (d : list (string * pyval)) (outer inner : string) (dflt : pyval) :
  get2 (PDict d) outer inner dflt =
  if absent_or_dict outer d then Ok (nested d outer inner dflt)
  else Raise AttributeError.
Proof.
  unfold get2, absent_or_dict, nested, get, mbind, result_bind, bind.
  destruct (lookup_key outer d) as [[] |]; reflexivity.
Qed.

Lemma get_dict (d : list (string * pyval)) (k : string) (dflt : pyval) :
  get (PDict d) k dflt = Ok (entry d k dflt).
Proof. reflexivity. Qed.

(** The parser on whatever stands under ['fee']. *)
Lemma parse_fee_entry (d : list (string * pyval)) :
  if fee_readable d
  then exists f, _parse_transfer_fee (entry d "fee" (PStr "")) = Ok f
  else _parse_transfer_fee (entry d "fee" (PStr "")) = Raise AttributeError.
Proof.
  unfold fee_readable, entry.
  destruct (lookup_key "fee" d) as [v |]; cbn [default].
  - destruct v; try apply parse_fee_str_total;
      unfold _parse_transfer_fee; destruct (falsy _); eauto.
  - eauto.
Qed.

Lemma record_of_dict (d : list (string * pyval)) :
  record_of (PDict d) =
  if well_shaped (PDict d)
  then f ← _parse_transfer_fee (entry d "fee" (PStr "")); Ok (flat_record d f)
  else Raise AttributeError.
Proof.
  unfold record_of, well_shaped. rewrite !get2_dict, !get_dict.
  pose proof (parse_fee_entry d) as Hfee.
  destruct (absent_or_dict "player" d); [| reflexivity].
  destruct (absent_or_dict "from_club" d); [| reflexivity].
  destruct (absent_or_dict "to_club" d); [| reflexivity].
  destruct (fee_readable d); cbn [andb];
    unfold mbind, result_bind; cbn [bind].
  - destruct Hfee as [f ->]. reflexivity.
  - rewrite Hfee. reflexivity.
Qed.

Lemma record_of_not_dict (t : pyval) :
  (forall d, t <> PDict d) -> record_of t = Raise AttributeError.
Proof.
  intros H. destruct t; try reflexivity. now destruct (H d).
Qed.

(** A record is built exactly for the well shaped raw transfers, and then it
    is the flat record. *)
Lemma record_of_ok_iff (t : pyval) :
  (exists r, record_of t = Ok r) <-> well_shaped t = true.
Proof.
  destruct t; try (split; [intros [r H]; discriminate | discriminate]).
  rewrite record_of_dict. pose proof (parse_fee_entry d) as Hfee.
  unfold well_shaped in *.
  destruct (absent_or_dict "player" d), (absent_or_dict "from_club" d),
    (absent_or_dict "to_club" d), (fee_readable d); cbn [andb];
    try (split; [intros [r H]; discriminate | discriminate]).
  destruct Hfee as [f ->]. split; [reflexivity | eauto].
Qed.

Lemma record_of_well_shaped (t : pyval) (r : list (string * pyval)) :
  record_of t = Ok r ->
  exists d f, t = PDict d
    /\ _parse_transfer_fee (entry d "fee" (PStr "")) = Ok f
    /\ r = flat_record d f.
Proof.
  intros H. destruct t; try discriminate.
  rewrite record_of_dict in H. destruct (well_shaped (PDict d)); [| discriminate].
  destruct (_parse_transfer_fee _) as [f | e] eqn:Hf; [| discriminate].
  unfold mbind, result_bind in H. cbn [bind] in H.
  apply Ok_inj in H. exists d, f. auto.
Qed.

Lemma records_of_ok (transfers : list pyval) :
  Forall (fun t => well_shaped t = true) transfers ->
  exists df, records_of transfers = Ok df
    /\ Forall2 (fun t r => record_of t = Ok r) transfers df.
Proof.
  induction 1 as [| t ts Ht _ [df [IH1 IH2]]]; cbn [records_of].
  - eauto.
  - apply record_of_ok_iff in Ht as [r Hr].
    exists (r :: df). rewrite Hr. cbn. rewrite IH1. cbn. eauto.
Qed.

Lemma records_of_inv (transfers : list pyval) (df : list (list (string * pyval))) :
  records_of transfers = Ok df ->
  Forall2 (fun t r => record_of t = Ok r) transfers df.
Proof.
  revert df. induction transfers as [| t ts IH]; cbn [records_of]; intros df H.
  - apply Ok_inj in H as <-. constructor.
  - destruct (record_of t) as [r | e] eqn:Hr; [| discriminate].
    destruct (records_of ts) as [rs | e]; [| discriminate].
    apply Ok_inj in H as <-. constructor; auto.
Qed.

(** *** Frames: columns read and written *)

Lemma lookup_set_key (k n : string) (v : pyval) (r : list (string * pyval)) :
  lookup_key k (set_key n v r) =
  (fun x => if String.eqb k n then v else x) <$> lookup_key k r.
Proof.
  induction r as [| [k' x] r IH]; [reflexivity |].
  cbn [set_key map lookup_key fst] in *.
  destruct (String.eqb_spec k' n) as [-> | Hn]; cbn [lookup_key].
  - destruct (String.eqb_spec k n) as [-> | Hk]; [reflexivity | exact IH].
  - destruct (String.eqb_spec k k') as [-> | Hk]; [| exact IH].
    destruct (String.eqb_spec k' n); [contradiction | reflexivity].
Qed.


Lemma length_column (n : string) (df : list (list (string * pyval))) :
  length (column n df) = length df.
Proof. apply length_map. Qed.

Lemma length_to_numeric (rd : readers) (col : list pyval) :
  length (to_numeric rd col) = length col.
Proof.
  unfold to_numeric. destruct (forallb _ _); now rewrite !length_map.
Qed.

Lemma length_to_datetime (rd : readers) (col : list pyval) :
  length (to_datetime rd col) = length col.
Proof. apply length_map. Qed.

Lemma assign_lookup (n : string) (col : list pyval)
  (df : list (list (string * pyval))) (i : nat) :
  assign n col df !! i =
  match df !! i, col !! i with
  | Some r, Some v => Some (set_key n v r)
  | _, _ => None
  end.
Proof.
  unfold assign. rewrite lookup_zip_with.
  destruct (df !! i); [| reflexivity]. destruct (col !! i); reflexivity.
Qed.

Lemma length_assign (n : string) (col : list pyval)
  (df : list (list (string * pyval))) :
  length col = length df -> length (assign n col df) = length df.
Proof. intros H. unfold assign. rewrite length_zip_with. lia. Qed.

(** Writing one column leaves the others as they were. *)
Lemma column_assign_ne (k n : string) (col : list pyval)
  (df : list (list (string * pyval))) :
  String.eqb k n = false -> length col = length df ->
  column k (assign n col df) = column k df.
Proof.
  intros Hk Hlen. apply list_eq. intros i.
  unfold column. rewrite !list_lookup_fmap, assign_lookup.
  destruct (df !! i) as [r |] eqn:Hr; [| reflexivity].
  destruct (lookup_lt_is_Some_2 col i) as [v ->].
  { rewrite Hlen. eapply lookup_lt_Some, Hr. }
  cbn. rewrite lookup_set_key, Hk. now destruct (lookup_key k r).
Qed.

(** A cell that does not read as an integer makes the column a float
    column. *)
Lemma to_numeric_lookup_float (rd : readers) (col : list pyval) (i : nat) (v : pyval) :
  col !! i = Some v -> is_int_cell (numeric_cell rd v) = false ->
  to_numeric rd col !! i = Some (PFloat (float_cell (numeric_cell rd v))).
Proof.
  intros Hi Hv. unfold to_numeric.
  destruct (forallb is_int_cell (map (numeric_cell rd) col)) eqn:E.
  - exfalso. rewrite forallb_forall in E.
    specialize (E (numeric_cell rd v)). rewrite Hv in E.
    assert (false = true); [| discriminate].
    apply E, in_map, list_elem_of_In, list_elem_of_lookup. eauto.
  - rewrite !list_lookup_fmap, Hi. reflexivity.
Qed.

(** A float cell stays the float it is. *)
Lemma to_numeric_lookup_PFloat (rd : readers) (col : list pyval) (i : nat) (f : float) :
  col !! i = Some (PFloat f) -> to_numeric rd col !! i = Some (PFloat f).
Proof.
  intros Hi. rewrite (to_numeric_lookup_float rd col i (PFloat f) Hi).
  - cbn. destruct f; reflexivity.
  - cbn. destruct (is_nan f); reflexivity.
Qed.

(** The row that [convert] makes of row [i]. *)
Lemma convert_lookup (rd : readers) (df : list (list (string * pyval)))
  (i : nat) (r : list (string * pyval)) :
  df !! i = Some r ->
  exists v1 v2 v3 v4,
    to_datetime rd (column "transfer_date" df) !! i = Some v1
    /\ to_numeric rd (column "player_age" df) !! i = Some v2
    /\ to_numeric rd (column "transfer_fee" df) !! i = Some v3
    /\ to_numeric rd (column "market_value" df) !! i = Some v4
    /\ convert rd df !! i =
       Some (set_key "market_value" v4
               (set_key "transfer_fee" v3
                  (set_key "player_age" v2
                     (set_key "transfer_date" v1 r)))).
Proof.
  intros Hr. pose proof (lookup_lt_Some _ _ _ Hr) as Hi.
  destruct (lookup_lt_is_Some_2 (to_datetime rd (column "transfer_date" df)) i)
    as [v1 H1]; [now rewrite length_to_datetime, length_column |].
  destruct (lookup_lt_is_Some_2 (to_numeric rd (column "player_age" df)) i)
    as [v2 H2]; [now rewrite length_to_numeric, length_column |].
  destruct (lookup_lt_is_Some_2 (to_numeric rd (column "transfer_fee" df)) i)
    as [v3 H3]; [now rewrite length_to_numeric, length_column |].
  destruct (lookup_lt_is_Some_2 (to_numeric rd (column "market_value" df)) i)
    as [v4 H4]; [now rewrite length_to_numeric, length_column |].
  exists v1, v2, v3, v4. repeat (split; [assumption |]).
  unfold convert.
  set (df1 := assign "transfer_date" _ df).
  assert (L1 : length df1 = length df).
  { apply length_assign. now rewrite length_to_datetime, length_column. }
  assert (C1 : forall k, String.eqb k "transfer_date" = false ->
                         column k df1 = column k df).
  { intros k Hk. apply column_assign_ne; [exact Hk |].
    now rewrite length_to_datetime, length_column. }
  rewrite (C1 "player_age") by reflexivity.
  set (df2 := assign "player_age" _ df1).
  assert (L2 : length df2 = length df).
  { rewrite <- L1. apply length_assign.
    now rewrite length_to_numeric, length_column. }
  assert (C2 : forall k, String.eqb k "player_age" = false ->
                         String.eqb k "transfer_date" = false ->
                         column k df2 = column k df).
  { intros k Hk Hk'. rewrite <- (C1 k Hk'). apply column_assign_ne; [exact Hk |].
    now rewrite length_to_numeric, length_column. }
  rewrite (C2 "transfer_fee") by reflexivity.
  set (df3 := assign "transfer_fee" _ df2).
  assert (C3 : column "market_value" df3 = column "market_value" df).
  { rewrite <- (C2 "market_value") by reflexivity.
    apply column_assign_ne; [reflexivity |].
    now rewrite length_to_numeric, length_column. }
  rewrite C3. subst df3 df2 df1.
  rewrite !assign_lookup, Hr, H1, H2, H3, H4. reflexivity.
Qed.


(** *** The frame [process_transfer_data] returns *)

Lemma process_unfold (rd : readers) (transfers : list pyval) :
  process_transfer_data rd transfers =
  df ← records_of transfers; Ok (convert rd df).
Proof.
  unfold process_transfer_data. destruct transfers as [| t ts]; [reflexivity |].
  destruct (records_of (t :: ts)) as [[| r rs] | e]; reflexivity.
Qed.

Lemma record_of_cases (t : pyval) :
  if well_shaped t then exists r, record_of t = Ok r
  else record_of t = Raise AttributeError.
Proof.
  destruct (well_shaped t) eqn:E.
  - apply record_of_ok_iff, E.
  - destruct t; try reflexivity. rewrite record_of_dict, E. reflexivity.
Qed.

Lemma records_of_cases (transfers : list pyval) :
  if forallb well_shaped transfers
  then exists df, records_of transfers = Ok df
  else records_of transfers = Raise AttributeError.
Proof.
  induction transfers as [| t ts IH]; cbn [forallb records_of]; [eauto |].
  pose proof (record_of_cases t) as Ht.
  destruct (well_shaped t); cbn [andb].
  - destruct Ht as [r ->]. unfold mbind, result_bind. cbn [bind].
    destruct (forallb well_shaped ts).
    + destruct IH as [df ->]. eauto.
    + rewrite IH. reflexivity.
  - rewrite Ht. reflexivity.
Qed.






(** *** Defaults *)







(** *** The fee column of a normalised frame *)

Lemma processed_row (rd : readers) (transfers : list pyval)
  (df : list (list (string * pyval))) (i : nat) (t : pyval) :
  process_transfer_data rd transfers = Ok df ->
  transfers !! i = Some t ->
  exists d f row,
    t = PDict d
    /\ _parse_transfer_fee (entry d "fee" (PStr "")) = Ok f
    /\ df !! i = Some row
    /\ lookup_key "transfer_fee" row = Some (PFloat f).
Proof.
  rewrite process_unfold. intros H Ht.
  destruct (records_of transfers) as [df0 |] eqn:E; [| discriminate].
  unfold mbind, result_bind in H. cbn [bind] in H. apply Ok_inj in H as <-.
  apply records_of_inv in E.
  destruct (Forall2_lookup_l _ _ _ _ _ E Ht) as (r & Hr & Hrec).
  apply record_of_well_shaped in Hrec as (d & f & -> & Hf & ->).
  destruct (convert_lookup rd df0 i _ Hr) as (v1 & v2 & v3 & v4 & _ & _ & H3 & _ & Hrow).
  rewrite (to_numeric_lookup_PFloat rd _ i f) in H3.
  2:{ unfold column. rewrite list_lookup_fmap, Hr. reflexivity. }
  apply (inj Some) in H3 as <-.
  exists d, f. eexists. repeat (split; [eassumption || reflexivity |]).
  rewrite !lookup_set_key. reflexivity.
Qed.




(** ** The order of floats *)

Ltac float_order :=
  unfold fle, flt, SFleb, SFltb, SFcompare;
  repeat match goal with
    | s : bool |- _ => destruct s
    end;
  cbn;
  repeat match goal with
    | |- context [Z.compare ?a ?b] => destruct (Z.compare_spec a b); cbn
    | |- context [Pos.compare_cont Eq ?a ?b] =>
        change (Pos.compare_cont Eq a b) with (Pos.compare a b);
        destruct (Pos.compare_spec a b); cbn
    end;
  try congruence; try lia.

Lemma fle_refl (a : float) : isna a = false -> fle a a = true.
Proof.
  destruct a as [s | s | | s m e]; intros H; try discriminate; float_order.
Qed.

Lemma flt_fle (a b : float) : flt a b = true -> fle a b = true.
Proof.
  destruct a as [sa | sa | | sa ma ea], b as [sb | sb | | sb mb eb]; float_order.
Qed.

Lemma fle_of_not_flt (a b : float) :
  isna a = false -> isna b = false -> flt b a = false -> fle a b = true.
Proof.
  destruct a as [sa | sa | | sa ma ea], b as [sb | sb | | sb mb eb];
    intros Ha Hb; try discriminate; float_order.
Qed.

Lemma fle_flt_trans (a b c : float) :
  fle a b = true -> flt b c = true -> flt a c = true.
Proof.
  destruct a as [sa | sa | | sa ma ea], b as [sb | sb | | sb mb eb],
    c as [sc | sc | | sc mc ec]; float_order.
Qed.

(** ** The summariser *)

(** *** The most expensive transfer *)

Lemma scanned_step (pre : list float) (best : option (nat * float)) (x : float) :
  scanned pre best ->
  scanned (pre ++ [x])
    (if isna x then best
     else match best with
          | None => Some (length pre, x)
          | Some (_, b) => if flt b x then Some (length pre, x) else best
          end).
Proof.
  intros H. destruct (isna x) eqn:Hx.
  - destruct best as [[i b] |]; cbn in *.
    + destruct H as (Hi & Hb & Hmax & Hfirst). repeat split.
      * now apply lookup_app_l_Some.
      * exact Hb.
      * intros j y [[_ Hj] | [_ <-]]%lookup_snoc_Some Hy; [eauto | congruence].
      * intros j y Hlt [[_ Hj] | [_ <-]]%lookup_snoc_Some Hy; [eauto | congruence].
    + apply Forall_app. split; [exact H |]. now constructor.
  - destruct best as [[i b] |]; cbn in *.
    + destruct H as (Hi & Hb & Hmax & Hfirst).
      destruct (flt b x) eqn:Hbx; cbn.
      * repeat split.
        -- apply list_lookup_middle. reflexivity.
        -- exact Hx.
        -- intros j y [[_ Hj] | [_ <-]]%lookup_snoc_Some Hy.
           ++ apply flt_fle. eapply fle_flt_trans; eauto.
           ++ now apply fle_refl.
        -- intros j y Hlt [[_ Hj] | [-> _]]%lookup_snoc_Some Hy; [| lia].
           eapply fle_flt_trans; eauto.
      * repeat split.
        -- now apply lookup_app_l_Some.
        -- exact Hb.
        -- intros j y [[_ Hj] | [_ <-]]%lookup_snoc_Some Hy; [eauto |].
           now apply fle_of_not_flt.
        -- intros j y Hlt [[_ Hj] | [-> _]]%lookup_snoc_Some Hy; [eauto |].
           apply lookup_lt_Some in Hi. lia.
    + repeat split.
      * apply list_lookup_middle. reflexivity.
      * exact Hx.
      * intros j y [[_ Hj] | [_ <-]]%lookup_snoc_Some Hy.
        -- eapply Forall_lookup_1 in H; eauto. congruence.
        -- now apply fle_refl.
      * intros j y Hlt [[_ Hj] | [-> _]]%lookup_snoc_Some Hy; [| lia].
        eapply Forall_lookup_1 in H; eauto. congruence.
Qed.

Lemma argmax_from_scanned (suf pre : list float) (best : option (nat * float)) :
  scanned pre best ->
  scanned (pre ++ suf) (argmax_from (length pre) best suf).
Proof.
  revert pre best. induction suf as [| x suf IH]; intros pre best H.
  - now rewrite app_nil_r.
  - cbn [argmax_from]. rewrite cons_middle, app_assoc.
    replace (S (length pre)) with (length (pre ++ [x]))
      by (rewrite length_app; cbn; lia).
    apply IH, scanned_step, H.
Qed.

Lemma argmax_scanned (col : list float) :
  scanned col (argmax_from 0 None col).
Proof. apply (argmax_from_scanned col [] None). constructor. Qed.

(** [max] is the value at [idxmax]. *)
Lemma max_argmax (col : list float) :
  max col = match argmax_from 0 None col with
            | Some (_, b) => b
            | None => S754_nan
            end.
Proof.
  unfold max.
  match goal with |- match ?x with _ => _ end = _ =>
    change (default S754_nan x = match argmax_from 0 None col with
                                 | Some (_, b) => b
                                 | None => S754_nan
                                 end)
  end.
  enough (H : forall l i best,
             fold_left
               (fun acc x =>
                  if isna x then acc
                  else match acc with
                       | None => Some x
                       | Some b => if flt b x then Some x else acc
                       end) l (snd <$> best)
             = snd <$> argmax_from i best l).
  { etransitivity; [apply f_equal, (H col 0%nat None) |].
    now destruct (argmax_from 0 None col) as [[i b] |]. }
  induction l as [| x l IH]; intros i best; [reflexivity |].
  cbn [fold_left argmax_from]. rewrite <- IH. f_equal.
  destruct (isna x); [reflexivity |].
  destruct best as [[j b] |]; cbn; [| reflexivity].
  destruct (flt b x); reflexivity.
Qed.

Lemma all_null_forallb (col : list float) :
  Forall (fun x => isna x = true) col <-> forallb isna col = true.
Proof.
  rewrite forallb_forall, Forall_forall.
  split; intros H x Hx; apply H; now apply list_elem_of_In.
Qed.

(** One guarded lookup of the summary: blank on an all-null fee column, the
    cell of the first most expensive row otherwise.  It never raises. *)
Lemma at_idxmax_cases (df : list FlatTransfer) (column : FlatTransfer -> string) :
  match argmax_from 0 None (map transfer_fee df) with
  | None => at_idxmax df column = Ok ""
  | Some (i, b) =>
      exists r, df !! i = Some r /\ transfer_fee r = b
                /\ at_idxmax df column = Ok (column r)
  end.
Proof.
  pose proof (argmax_scanned (map transfer_fee df)) as H.
  unfold at_idxmax, idxmax.
  destruct (argmax_from 0 None (map transfer_fee df)) as [[i b] |]; cbn in H.
  - destruct H as (Hi & Hb & _).
    rewrite list_lookup_fmap in Hi.
    destruct (df !! i) as [r |] eqn:Hr; [| discriminate].
    apply (inj Some) in Hi. exists r. split; [reflexivity |]. split; [exact Hi |].
    destruct (forallb isna (map transfer_fee df)) eqn:E.
    + apply all_null_forallb in E.
      eapply Forall_lookup_1 in E; [| rewrite list_lookup_fmap, Hr; reflexivity].
      cbn in E. congruence.
    + cbn. unfold loc. now rewrite Hr.
  - apply all_null_forallb in H. now rewrite H.
Qed.

Lemma generate_unfold (df : list FlatTransfer) :
  df <> [] ->
  generate_transfer_summary df =
  p ← at_idxmax df player_name;
  f ← at_idxmax df from_club_name;
  t ← at_idxmax df to_club_name;
  Ok (FullReport (summary_with df p f t)).
Proof. destruct df; [congruence | reflexivity]. Qed.

(** The summary of a frame with rows: it is always built. *)
Lemma generate_cases (df : list FlatTransfer) :
  df <> [] ->
  match argmax_from 0 None (map transfer_fee df) with
  | None =>
      generate_transfer_summary df = Ok (FullReport (summary_with df "" "" ""))
  | Some (i, b) =>
      exists r, df !! i = Some r /\ transfer_fee r = b
                /\ generate_transfer_summary df =
                   Ok (FullReport
                         (summary_with df (player_name r) (from_club_name r)
                            (to_club_name r)))
  end.
Proof.
  intros Hdf. rewrite (generate_unfold df Hdf).
  pose proof (at_idxmax_cases df player_name) as Hp.
  pose proof (at_idxmax_cases df from_club_name) as Hf.
  pose proof (at_idxmax_cases df to_club_name) as Ht.
  destruct (argmax_from 0 None (map transfer_fee df)) as [[i b] |].
  - destruct Hp as (r & Hr & Hb & ->), Hf as (r1 & Hr1 & _ & ->),
      Ht as (r2 & Hr2 & _ & ->).
    rewrite Hr in Hr1, Hr2. apply (inj Some) in Hr1 as <-, Hr2 as <-.
    exists r. auto.
  - now rewrite Hp, Hf, Ht.
Qed.

(** C8: the summary of the empty table is the empty report, returned before
    any aggregate is taken (the position of the largest fee of an empty
    column would be an error); only the empty table has the empty report. *)
Theorem summary_of_empty_table :
  generate_transfer_summary [] = Ok EmptyReport
  /\ idxmax (map transfer_fee []) = Raise ValueError
  /\ (forall df, generate_transfer_summary df = Ok EmptyReport <-> df = []).
Proof.
  split; [reflexivity |]. split; [reflexivity |].
  intros df. split; [| now intros ->].
  destruct df as [| r df]; [reflexivity |]. intros H.
  pose proof (generate_cases (r :: df) ltac:(discriminate)) as Hc.
  destruct (argmax_from 0 None (map transfer_fee (r :: df))) as [[i b] |].
  - destruct Hc as (r' & _ & _ & Hc). congruence.
  - congruence.
Qed.

(** C4, as the code has it: on a table with rows whose fees are all null the
    summary is built, and its most expensive transfer has the empty string
    for the player and both clubs and NaN, not 0, for the fee. *)
Theorem most_expensive_of_all_null_fees (df : list FlatTransfer) :
  df <> [] ->
  Forall (fun r => isna (transfer_fee r) = true) df ->
  exists s,
    generate_transfer_summary df = Ok (FullReport s)
    /\ most_expensive_transfer s =
       {| player := ""; fee := S754_nan; from_club := ""; to_club := "" |}.
Proof.
  intros Hdf Hnull.
  pose proof (generate_cases df Hdf) as Hc.
  pose proof (argmax_scanned (map transfer_fee df)) as Hs.
  pose proof (max_argmax (map transfer_fee df)) as Hm.
  destruct (argmax_from 0 None (map transfer_fee df)) as [[i b] |]; cbn in Hs.
  - exfalso. destruct Hs as (Hi & Hb & _).
    rewrite list_lookup_fmap in Hi.
    destruct (df !! i) as [r |] eqn:Hr; [| discriminate].
    eapply Forall_lookup_1 in Hnull; [| exact Hr].
    apply (inj Some) in Hi. cbn in Hnull. congruence.
  - eexists. split; [exact Hc |]. cbn. now rewrite Hm.
Qed.

Lemma most_expensive_of_all_null_fees_witness :
  exists s,
    generate_transfer_summary
      [row "Ada" "X" "Y" S754_nan None; row "Bob" "Y" "Z" S754_nan None]
    = Ok (FullReport s)
    /\ most_expensive_transfer s =
       {| player := ""; fee := S754_nan; from_club := ""; to_club := "" |}.
Proof.
  apply most_expensive_of_all_null_fees.
  - discriminate.
  - repeat constructor.
Defined.

(** C4 as stated fails: with every fee null the reported fee is NaN, which
    is not 0. *)
Lemma most_expensive_fee_is_not_zero :
  ~ (exists s,
       generate_transfer_summary [row "Ada" "X" "Y" S754_nan None] = Ok (FullReport s)
       /\ player (most_expensive_transfer s) = ""
       /\ from_club (most_expensive_transfer s) = ""
       /\ to_club (most_expensive_transfer s) = ""
       /\ feq (fee (most_expensive_transfer s)) (S754_zero false) = true).
Proof.
  intros (s & H & _ & _ & _ & Hfee).
  vm_compute in H. apply Ok_inj in H. injection H as <-.
  vm_compute in Hfee. discriminate.
Qed.



(** Of two equal largest fees the earlier row is the one reported. *)
Example most_expensive_tie_example :
  exists s,
    generate_transfer_summary
      [row "Ada" "X" "Y" (dyadic 5 0) None; row "Bob" "Y" "Z" (dyadic 20 0) None;
       row "Cyd" "Z" "X" S754_nan None; row "Dee" "X" "Z" (dyadic 20 0) None]
    = Ok (FullReport s)
    /\ most_expensive_transfer s =
       {| player := "Bob"; fee := dyadic 20 0; from_club := "Y"; to_club := "Z" |}.
Proof.
  eexists. split; vm_compute; reflexivity.
Qed.

(** *** Grouped sums *)

Section GroupedSums.
Context {R K : Type} `{Countable K}.
Variable leb : K -> K -> bool.





End GroupedSums.






(** Three dated rows and one without a date: four transfers, two months. *)
Example transfers_by_month_example :
  exists s,
    generate_transfer_summary
      [row "Ada" "X" "Y" (dyadic 10 0) (Some {| ts_year := 2025; ts_month := Jul; ts_day := 1; ts_nanos := 0 |});
       row "Bob" "Y" "Z" (dyadic 20 0) None;
       row "Cyd" "Z" "X" (dyadic 5 0) (Some {| ts_year := 2025; ts_month := Jul; ts_day := 9; ts_nanos := 0 |});
       row "Dee" "X" "Z" (dyadic 1 0) (Some {| ts_year := 2025; ts_month := Jan; ts_day := 3; ts_nanos := 0 |})]
    = Ok (FullReport s)
    /\ total_transfers s = 4%nat
    /\ transfers_by_month s = {[ 1 := dyadic 1 0; 7 := dyadic 15 0 ]}.
Proof.
  eexists. split; [vm_compute; reflexivity |]. split; vm_compute; reflexivity.
Qed.

(** A grouped sum reads only the key and the value of each row. *)
Lemma groupby_sum_pairs {R K : Type} `{EqDecision K} (leb : K -> K -> bool)
  (key : R -> option K) (value : R -> float) (df : list R) :
  groupby_sum leb key value df =
  groupby_sum leb fst snd (map (fun r => (key r, value r)) df).
Proof.
  unfold groupby_sum. rewrite map_map. cbn [fst].
  apply map_ext. intros k. do 2 f_equal.
  induction df as [| r df IH]; [reflexivity |].
  cbn [map]. rewrite !filter_cons. cbn [fst].
  destruct (decide (bool_decide (key r = Some k) = true)); cbn [map snd];
    now rewrite IH.
Qed.

(** C5: three rows with fees 10.0, 20.0 and null going to clubs A, B and A:
    the total spending is 30.0, the average fee 15.0 (the null fee is left
    out of the count), and the spending per club is 10.0 for A and 20.0 for
    B. *)
Theorem summary_of_three_transfers (r1 r2 r3 : FlatTransfer) :
  transfer_fee r1 = dyadic 10 0 -> to_club_name r1 = "A" ->
  transfer_fee r2 = dyadic 20 0 -> to_club_name r2 = "B" ->
  isna (transfer_fee r3) = true -> to_club_name r3 = "A" ->
  exists s,
    generate_transfer_summary [r1; r2; r3] = Ok (FullReport s)
    /\ total_transfers s = 3%nat
    /\ total_spending s = dyadic 30 0
    /\ average_fee s = dyadic 15 0
    /\ top_spending_clubs s = {[ "A" := dyadic 10 0; "B" := dyadic 20 0 ]}.
Proof.
  intros F1 C1 F2 C2 F3 C3.
  assert (F3' : transfer_fee r3 = S754_nan)
    by (destruct (transfer_fee r3); try discriminate; reflexivity).
  pose proof (generate_cases [r1; r2; r3] ltac:(discriminate)) as Hc.
  cbn [map] in Hc. rewrite F1, F2, F3' in Hc.
  change (argmax_from 0 None [dyadic 10 0; dyadic 20 0; S754_nan])
    with (Some (1%nat, dyadic 20 0)) in Hc.
  destruct Hc as (r & _ & _ & Hc).
  eexists. split; [exact Hc |].
  cbn [summary_with total_transfers total_spending average_fee
         top_spending_clubs].
  rewrite groupby_sum_pairs. cbn [map]. rewrite F1, F2, F3', C1, C2, C3.
  split; [reflexivity |]. split; [vm_compute; reflexivity |].
  split; vm_compute; reflexivity.
Qed.

Lemma summary_of_three_transfers_witness :
  exists s,
    generate_transfer_summary
      [row "Ada" "X" "A" (dyadic 10 0) None; row "Bob" "Y" "B" (dyadic 20 0) None;
       row "Cyd" "Z" "A" S754_nan None]
    = Ok (FullReport s)
    /\ total_transfers s = 3%nat
    /\ total_spending s = dyadic 30 0
    /\ average_fee s = dyadic 15 0
    /\ top_spending_clubs s = {[ "A" := dyadic 10 0; "B" := dyadic 20 0 ]}.
Proof.
  apply summary_of_three_transfers; reflexivity.
Defined.

(** ** Further properties of the summariser *)

(** *** The guard on [idxmax] *)

Lemma argmax_from_Some (col : list float) (i : nat) (p : nat * float) :
  exists q, argmax_from i (Some p) col = Some q.
Proof.
  revert i p. induction col as [| x col IH]; intros i p; cbn [argmax_from].
  - eauto.
  - destruct (isna x); [apply IH |].
    destruct p as [j b]. destruct (flt b x); apply IH.
Qed.

Lemma argmax_from_None (col : list float) (i : nat) :
  argmax_from i None col = None <-> forallb isna col = true.
Proof.
  revert i. induction col as [| x col IH]; intros i; cbn [argmax_from forallb].
  - tauto.
  - destruct (isna x); cbn [andb]; [apply IH |].
    destruct (argmax_from_Some col (S i) (i, x)) as [q ->].
    split; discriminate.
Qed.

(** X1: [idxmax] raises exactly on a column with no fee, the case the summary
    excludes before it asks; so neither the guarded lookup nor the summary
    ever raises, and the lookup is blank exactly in that case. *)
Theorem idxmax_raises_only_without_fees
  (df : list FlatTransfer) (column : FlatTransfer -> string) :
  (idxmax (map transfer_fee df) = Raise ValueError
   <-> forallb isna (map transfer_fee df) = true)
  /\ (forall e, idxmax (map transfer_fee df) = Raise e -> e = ValueError)
  /\ (exists s, at_idxmax df column = Ok s)
  /\ (forallb isna (map transfer_fee df) = true -> at_idxmax df column = Ok "")
  /\ (exists rep, generate_transfer_summary df = Ok rep).
Proof.
  pose proof (argmax_from_None (map transfer_fee df) 0) as Hnone.
  pose proof (at_idxmax_cases df column) as Hat.
  split; [| split; [| split; [| split]]].
  - unfold idxmax. rewrite <- Hnone.
    destruct (argmax_from 0 None (map transfer_fee df)) as [[i b] |];
      split; congruence.
  - unfold idxmax.
    destruct (argmax_from 0 None (map transfer_fee df)) as [[i b] |]; congruence.
  - destruct (argmax_from 0 None (map transfer_fee df)) as [[i b] |].
    + destruct Hat as (r & _ & _ & ->). eauto.
    + eauto.
  - intros Hall. unfold at_idxmax. now rewrite Hall.
  - destruct df as [| r0 df0]; [exists EmptyReport; reflexivity |].
    pose proof (generate_cases (r0 :: df0) ltac:(discriminate)) as Hc.
    destruct (argmax_from 0 None (map transfer_fee (r0 :: df0))) as [[i b] |].
    + destruct Hc as (r & _ & _ & ->). eauto.
    + eauto.
Qed.

(** *** Fee statistics and null fees *)

Lemma dropna_all_null (col : list float) :
  Forall (fun x => isna x = true) col -> dropna col = [].
Proof.
  induction 1 as [| x col Hx _ IH]; [reflexivity |].
  unfold dropna in *. rewrite filter_cons_False; [exact IH |].
  rewrite Hx. discriminate.
Qed.



(** The summary of a table with rows and no fee. *)
Lemma most_expensive_null_summary (df : list FlatTransfer) :
  df <> [] ->
  Forall (fun r => isna (transfer_fee r) = true) df ->
  generate_transfer_summary df = Ok (FullReport (summary_with df "" "" ""))
  /\ max (map transfer_fee df) = S754_nan.
Proof.
  intros Hdf Hnull.
  pose proof (generate_cases df Hdf) as Hc.
  pose proof (max_argmax (map transfer_fee df)) as Hm.
  assert (Hn : argmax_from 0 None (map transfer_fee df) = None).
  { apply argmax_from_None, all_null_forallb, Forall_fmap. exact Hnull. }
  rewrite Hn in Hc, Hm. auto.
Qed.

(** X2: on a table with rows whose fees are all null the total spending is 0.0,
    while the average and the median fee are NaN. *)
Theorem fee_statistics_of_all_null_fees (df : list FlatTransfer) :
  df <> [] ->
  Forall (fun r => isna (transfer_fee r) = true) df ->
  exists s,
    generate_transfer_summary df = Ok (FullReport s)
    /\ total_spending s = S754_zero false
    /\ average_fee s = S754_nan
    /\ median_fee s = S754_nan.
Proof.
  intros Hdf Hnull.
  destruct (most_expensive_null_summary df Hdf Hnull) as [Hs _].
  eexists. split; [exact Hs |].
  assert (Hd : dropna (map transfer_fee df) = []).
  { apply dropna_all_null, Forall_fmap. exact Hnull. }
  cbn [summary_with total_spending average_fee median_fee].
  unfold mean, median, sum, count. rewrite Hd. repeat split.
Qed.

Lemma fee_statistics_of_all_null_fees_witness :
  exists s,
    generate_transfer_summary
      [row "Ada" "X" "Y" S754_nan None; row "Bob" "Y" "Z" S754_nan None]
    = Ok (FullReport s)
    /\ total_spending s = S754_zero false
    /\ average_fee s = S754_nan
    /\ median_fee s = S754_nan.
Proof.
  apply fee_statistics_of_all_null_fees.
  - discriminate.
  - repeat constructor.
Defined.

Local Open Scope list_scope.








(** *** The largest grouped sums *)


Lemma fle_trans (a b c : float) :
  fle a b = true -> fle b c = true -> fle a c = true.
Proof.
  destruct a as [sa | sa | | sa ma ea], b as [sb | sb | | sb mb eb],
    c as [sc | sc | | sc mc ec]; float_order.
Qed.

Section Largest.
Context {K : Type}.








End Largest.

Lemma size_list_to_map_le {K V} `{Countable K} (l : list (K * V)) :
  (size (list_to_map l : gmap K V) <= length l)%nat.
Proof.
  induction l as [| [k v] l IH]; [now rewrite list_to_map_nil, map_size_empty |].
  rewrite list_to_map_cons. cbn [length].
  destruct ((list_to_map l : gmap K V) !! k) eqn:E.
  - rewrite map_size_insert_Some by eauto. lia.
  - rewrite map_size_insert_None by exact E. lia.
Qed.


(** *** Group keys are sorted and distinct *)


Section SortedKeys.
Context {K : Type} `{EqDecision K}.
Variable leb : K -> K -> bool.
Hypothesis leb_total : forall a b, leb a b = true \/ leb b a = true.
Hypothesis leb_antisym : forall a b, leb a b = true -> leb b a = true -> a = b.
Hypothesis leb_trans : forall a b c, leb a b = true -> leb b c = true -> leb a c = true.







End SortedKeys.


(** *** The top spending and selling clubs *)

Lemma generate_summary_with (df : list FlatTransfer) :
  df <> [] ->
  exists p f t,
    generate_transfer_summary df = Ok (FullReport (summary_with df p f t)).
Proof.
  intros Hdf. pose proof (generate_cases df Hdf) as Hc.
  destruct (argmax_from 0 None (map transfer_fee df)) as [[i b] |].
  - destruct Hc as (r & _ & _ & Hc). eauto.
  - eauto.
Qed.




(** Twelve clubs buy one player each for 1, 2, ..., 12: the ten clubs that
    paid 3 or more are listed. *)
Example top_spending_clubs_example :
  exists s,
    generate_transfer_summary
      (map (fun n => row "p" "seller" (String (ascii_of_nat (96 + n)) "")
                         (float_of_int (Z.of_nat n)) None)
           (seq 1 12))
    = Ok (FullReport s)
    /\ size (top_spending_clubs s) = 10%nat
    /\ top_spending_clubs s !! "a" = None
    /\ top_spending_clubs s !! "b" = None
    /\ top_spending_clubs s !! "c" = Some (dyadic 3 0)
    /\ top_spending_clubs s !! "l" = Some (dyadic 12 0)
    /\ top_selling_clubs s = {[ "seller" := dyadic 78 0 ]}.
Proof.
  eexists. split; [vm_compute; reflexivity |].
  repeat split; vm_compute; reflexivity.
Qed.

(** *** Transfers by position *)

Lemma to_dict_bump (k : string) (l : list (string * nat)) :
  (list_to_map (bump k l) : gmap string nat)
  = <[k := S (default 0%nat ((list_to_map l : gmap string nat) !! k))]>
      (list_to_map l).
Proof.
  induction l as [| [k' c] l IH]; cbn [bump]; [reflexivity |].
  destruct (String.eqb_spec k k') as [<- | Hne].
  - rewrite !list_to_map_cons, lookup_insert_eq. cbn [default].
    now rewrite insert_insert_eq.
  - rewrite !list_to_map_cons, IH, lookup_insert_ne by congruence.
    apply insert_insert_ne. congruence.
Qed.

Lemma bump_keys (k : string) (l : list (string * nat)) :
  (bump k l).*1 = if decide (k ∈ l.*1) then l.*1 else l.*1 ++ [k].
Proof.
  induction l as [| [k' c] l IH]; cbn [bump].
  - rewrite decide_False by apply not_elem_of_nil. reflexivity.
  - destruct (String.eqb_spec k k') as [<- | Hne]; cbn [fmap list_fmap fst].
    + rewrite decide_True by apply list_elem_of_here. reflexivity.
    + change (list_fmap _ _ fst ?x) with (x.*1). rewrite IH.
      destruct (decide (k ∈ l.*1)) as [Hin | Hout].
      * rewrite decide_True by now apply list_elem_of_further. reflexivity.
      * rewrite decide_False; [reflexivity |].
        intros [? | ?]%elem_of_cons; congruence.
Qed.

Lemma bump_NoDup (k : string) (l : list (string * nat)) :
  NoDup l.*1 -> NoDup (bump k l).*1.
Proof.
  intros Hl. rewrite bump_keys. destruct (decide (k ∈ l.*1)); [exact Hl |].
  apply NoDup_app. split; [exact Hl |]. split.
  - intros x Hx [-> | []%elem_of_nil]%elem_of_cons. contradiction.
  - apply NoDup_singleton.
Qed.

Lemma counted_NoDup (col : list string) (acc : list (string * nat)) :
  NoDup acc.*1 -> NoDup (fold_left (fun acc k => bump k acc) col acc).*1.
Proof.
  revert acc. induction col as [| k col IH]; intros acc Hacc; [exact Hacc |].
  cbn [fold_left]. apply IH, bump_NoDup, Hacc.
Qed.

(** The tally after a column: each value has been counted once per
    occurrence. *)
Lemma counted_lookup (col : list string) (acc : list (string * nat)) (p : string) :
  (list_to_map (fold_left (fun acc k => bump k acc) col acc) : gmap string nat) !! p
  = match length (filter (fun k => k = p) col) with
    | O => (list_to_map acc : gmap string nat) !! p
    | n => Some (n + default 0%nat ((list_to_map acc : gmap string nat) !! p))%nat
    end.
Proof.
  revert acc. induction col as [| k col IH]; intros acc; [reflexivity |].
  cbn [fold_left]. rewrite IH, to_dict_bump.
  destruct (decide (k = p)) as [-> | Hne].
  - rewrite filter_cons_True by reflexivity. cbn [length].
    rewrite lookup_insert_eq. cbn [default].
    destruct (length (filter (fun k => k = p) col)); [reflexivity |].
    apply (f_equal Some). unfold id. lia.
  - rewrite filter_cons_False by exact Hne.
    now rewrite lookup_insert_ne by exact Hne.
Qed.

Lemma insert_count_perm (x : string * nat) (l : list (string * nat)) :
  insert_count x l ≡ₚ x :: l.
Proof.
  induction l as [| y l IH]; cbn [insert_count]; [reflexivity |].
  destruct (snd x <? snd y)%nat; [| reflexivity].
  rewrite IH. apply Permutation_swap.
Qed.

Lemma value_counts_perm (col : list string) :
  value_counts col ≡ₚ fold_left (fun acc k => bump k acc) col [].
Proof.
  unfold value_counts.
  induction (fold_left (fun acc k => bump k acc) col []) as [| x l IH];
    cbn [foldr]; [reflexivity |].
  now rewrite insert_count_perm, IH.
Qed.

Lemma value_counts_lookup (col : list string) (p : string) :
  to_dict (value_counts col) !! p
  = match length (filter (fun k => k = p) col) with
    | O => None
    | n => Some n
    end.
Proof.
  unfold to_dict.
  rewrite <- (list_to_map_proper _ _ (counted_NoDup col [] (NoDup_nil_2))
                (symmetry (value_counts_perm col))).
  rewrite counted_lookup, list_to_map_nil, lookup_empty. cbn [default].
  destruct (length (filter (fun k => k = p) col)); [reflexivity |].
  apply (f_equal Some). lia.
Qed.

Lemma length_position_rows (p : string) (df : list FlatTransfer) :
  length (filter (fun k => k = p) (map player_position df))
  = length (position_rows p df).
Proof.
  unfold position_rows. induction df as [| r df IH]; [reflexivity |].
  cbn [map]. destruct (decide (player_position r = p)) as [Hp | Hp].
  - rewrite !filter_cons_True by exact Hp. cbn [length]. now rewrite IH.
  - now rewrite !filter_cons_False by exact Hp.
Qed.

(** X5: [transfers_by_position] counts the rows of each position: a position has
    an entry exactly when some row has it (the empty string included), and
    the entry is the number of those rows, never 0. *)
Theorem transfers_by_position_counts (df : list FlatTransfer) :
  exists rep,
    generate_transfer_summary df = Ok rep
    /\ match rep with
       | EmptyReport => df = []
       | FullReport s =>
           (forall p,
              transfers_by_position s !! p =
              match position_rows p df with
              | [] => None
              | rows => Some (length rows)
              end)
           /\ (forall r, r ∈ df ->
                 exists n, transfers_by_position s !! player_position r = Some (S n))
       end.
Proof.
  destruct df as [| r0 df0]; [exists EmptyReport; split; reflexivity |].
  set (df := r0 :: df0).
  destruct (generate_summary_with df ltac:(discriminate)) as (p & f & t & Hs).
  eexists. split; [exact Hs |].
  assert (Hlook : forall q,
             transfers_by_position (summary_with df p f t) !! q =
             match position_rows q df with
             | [] => None
             | rows => Some (length rows)
             end).
  { intros q. cbn [summary_with transfers_by_position].
    rewrite value_counts_lookup, length_position_rows.
    now destruct (position_rows q df). }
  split; [exact Hlook |].
  intros r Hr. rewrite Hlook.
  assert (Hin : r ∈ position_rows (player_position r) df).
  { unfold position_rows. apply list_elem_of_filter. auto. }
  destruct (position_rows (player_position r) df) as [| r1 rows];
    [inversion Hin |].
  cbn [length]. eauto.
Qed.

(** Three forwards, one keeper and a row without a position. *)
Example transfers_by_position_example :
  exists s,
    generate_transfer_summary
      (map (fun pos =>
              {| player_id := ""; player_name := ""; player_age := S754_nan;
                 player_position := pos; player_nationality := "";
                 from_club_id := ""; from_club_name := ""; from_club_league := "";
                 to_club_id := ""; to_club_name := ""; to_club_league := "";
                 transfer_fee := S754_nan; transfer_fee_currency := "EUR";
                 transfer_date := None; transfer_type := "";
                 contract_duration := ""; season := "";
                 market_value := S754_nan |})
           ["FW"; "GK"; "FW"; ""; "FW"])
    = Ok (FullReport s)
    /\ transfers_by_position s = {[ "FW" := 3%nat; "GK" := 1%nat; "" := 1%nat ]}.
Proof.
  eexists. split; vm_compute; reflexivity.
Qed.

(** ** Further properties of the fee parser *)

(** *** The characters of a numeric text *)

Lemma all_chars_lstrip (P : ascii -> bool) (s : string) :
  (forall c, is_space c = true -> P c = true) ->
  all_chars P (lstrip s) = true -> all_chars P s = true.
Proof.
  intros HP. induction s as [| c s IH]; cbn [lstrip all_chars]; [auto |].
  destruct (is_space c) eqn:E; [| auto].
  intros H. rewrite (HP c E), (IH H). reflexivity.
Qed.

Lemma all_chars_rstrip (P : ascii -> bool) (s : string) :
  (forall c, is_space c = true -> P c = true) ->
  all_chars P (rstrip s) = true -> all_chars P s = true.
Proof.
  intros HP. induction s as [| c s IH]; cbn [rstrip all_chars]; [auto |].
  destruct (rstrip s) as [| c' r] eqn:E.
  - destruct (is_space c) eqn:Ec.
    + intros _. rewrite (HP c Ec), IH; reflexivity.
    + cbn [all_chars]. intros H. apply andb_true_iff in H as [-> _].
      now rewrite IH.
  - cbn [all_chars]. intros H. apply andb_true_iff in H as [-> H].
    now rewrite IH.
Qed.

Lemma all_chars_drop_underscores (P : ascii -> bool) (s : string) :
  (forall c, is_underscore c = true -> P c = true) ->
  all_chars P (drop_underscores s) = true -> all_chars P s = true.
Proof.
  intros HP. induction s as [| c s IH]; cbn [drop_underscores all_chars]; [auto |].
  destruct (is_underscore c) eqn:E.
  - intros H. rewrite (HP c E), (IH H). reflexivity.
  - cbn [all_chars]. intros H. apply andb_true_iff in H as [-> H].
    now rewrite IH.
Qed.

Lemma all_chars_scan_sign (s : string) :
  all_chars numeric_char (snd (scan_sign s)) = true ->
  all_chars numeric_char s = true.
Proof.
  destruct s as [| c s]; [auto |]. unfold scan_sign.
  destruct (code c =? 45)%nat eqn:E1; [| destruct (code c =? 43)%nat eqn:E2];
    cbn [snd all_chars]; [| | auto]; intros ->; rewrite andb_true_r.
  - apply Nat.eqb_eq in E1. unfold code in E1.
    rewrite <- (ascii_nat_embedding c), E1. reflexivity.
  - apply Nat.eqb_eq in E2. unfold code in E2.
    rewrite <- (ascii_nat_embedding c), E2. reflexivity.
Qed.

Lemma numeric_digit (c : ascii) : is_digit c = true -> numeric_char c = true.
Proof. intros H. unfold numeric_char. now rewrite H. Qed.

Lemma all_chars_scan_digits (s : string) (acc n : Z) :
  all_chars numeric_char (snd (scan_digits acc n s)) = true ->
  all_chars numeric_char s = true.
Proof.
  revert acc n. induction s as [| c s IH]; intros acc n; cbn [scan_digits]; [auto |].
  destruct (is_digit c) eqn:E.
  - intros H. cbn [all_chars]. rewrite (numeric_digit c E). cbn [andb].
    eapply IH, H.
  - auto.
Qed.

Lemma scan_decimal_chars (neg : bool) (s : string) (f : float) :
  scan_decimal neg s = Some f -> all_chars numeric_char s = true.
Proof.
  unfold scan_decimal.
  pose proof (all_chars_scan_digits s 0 0) as H1.
  destruct (scan_digits 0 0 s) as [[i ni] r1]. cbn [snd] in H1.
  assert (H2 : forall m nf r2,
             match r1 with
             | String "." r => scan_digits i 0 r
             | _ => (i, 0, r1)
             end = (m, nf, r2) ->
             all_chars numeric_char r2 = true -> all_chars numeric_char r1 = true).
  { intros m nf r2 E Hr2. destruct r1 as [| c r]; [now inversion E; subst |].
    destruct (Ascii.eqb_spec c ".") as [-> | Hc].
    - cbn [all_chars]. cbn [andb numeric_char].
      pose proof (all_chars_scan_digits r i 0) as Hd. rewrite E in Hd.
      now apply Hd.
    - assert (E' : (i, 0, String c r) = (m, nf, r2)).
      { rewrite <- E. destruct c as [[] [] [] [] [] [] [] []]; try reflexivity.
        now destruct Hc. }
      now inversion E'; subst. }
  destruct (match r1 with
            | String "." r => scan_digits i 0 r
            | _ => (i, 0, r1)
            end) as [[m nf] r2].
  specialize (H2 m nf r2 eq_refl).
  destruct (ni + nf =? 0); [discriminate |].
  destruct r2 as [| c r]; [intros _; auto |].
  destruct ((code c =? 101)%nat || (code c =? 69)%nat) eqn:Ec; [| discriminate].
  pose proof (all_chars_scan_sign r) as Hs.
  destruct (scan_sign r) as [eneg r']. cbn [snd] in Hs.
  pose proof (all_chars_scan_digits r' 0 0) as Hd.
  destruct (scan_digits 0 0 r') as [[ev ne] r3]. cbn [snd] in Hd.
  destruct (ne =? 0); [discriminate |].
  destruct r3; [| discriminate].
  intros _. apply H1, H2. cbn [all_chars]. rewrite Hs by now apply Hd.
  rewrite andb_true_r.
  apply orb_true_iff in Ec as [Ec | Ec]; apply Nat.eqb_eq in Ec;
    unfold code in Ec; rewrite <- (ascii_nat_embedding c), Ec; reflexivity.
Qed.

Lemma all_chars_impl (P Q : ascii -> bool) (s : string) :
  (forall c, P c = true -> Q c = true) ->
  all_chars P s = true -> all_chars Q s = true.
Proof.
  intros HPQ. induction s as [| c s IH]; cbn [all_chars]; [auto |].
  intros [Hc Hs]%andb_true_iff. now rewrite (HPQ c Hc), IH.
Qed.

Lemma all_chars_lower (Q : ascii -> bool) (s : string) :
  all_chars Q (lower s) = all_chars (fun c => Q (lower_char c)) s.
Proof.
  induction s as [| c s IH]; cbn [lower all_chars]; [reflexivity |].
  now rewrite IH.
Qed.

Lemma word_letter_numeric (c : ascii) :
  existsb (Ascii.eqb (lower_char c)) (list_ascii_of_string "infinityan") = true ->
  numeric_char c = true.
Proof.
  destruct c as [[] [] [] [] [] [] [] []]; vm_compute; congruence.
Qed.

Lemma scan_inf_or_nan_chars (neg : bool) (s : string) (f : float) :
  scan_inf_or_nan neg s = Some f -> all_chars numeric_char s = true.
Proof.
  unfold scan_inf_or_nan. intros H.
  assert (Hw : all_chars (fun c => existsb (Ascii.eqb c)
                                     (list_ascii_of_string "infinityan"))
                 (lower s) = true).
  { destruct (String.eqb_spec (lower s) "inf") as [-> | _]; [reflexivity |].
    destruct (String.eqb_spec (lower s) "infinity") as [-> | _]; [reflexivity |].
    destruct (String.eqb_spec (lower s) "nan") as [-> | _]; [reflexivity |].
    discriminate. }
  rewrite all_chars_lower in Hw.
  eapply all_chars_impl; [| exact Hw]. exact word_letter_numeric.
Qed.

(** A text that [float] accepts is made of numeric characters only. *)
Lemma float_of_str_chars (s : string) (f : float) :
  float_of_str s = Ok f -> all_chars numeric_char s = true.
Proof.
  unfold float_of_str, strip. intros H.
  assert (Hspace : forall c, is_space c = true -> numeric_char c = true).
  { intros c Hc. unfold numeric_char. rewrite Hc. now rewrite orb_true_r. }
  assert (Hus : forall c, is_underscore c = true -> numeric_char c = true).
  { intros c Hc. unfold numeric_char. rewrite Hc. now rewrite !orb_true_r. }
  apply all_chars_lstrip, all_chars_rstrip, all_chars_drop_underscores,
    all_chars_scan_sign; try assumption.
  destruct (underscores_ok None (rstrip (lstrip s))); [| discriminate].
  destruct (scan_sign _) as [neg body]. cbn [snd].
  destruct (scan_decimal neg body) as [x |] eqn:Ed.
  - eapply scan_decimal_chars, Ed.
  - destruct (scan_inf_or_nan neg body) as [x |] eqn:Ei; [| discriminate].
    eapply scan_inf_or_nan_chars, Ei.
Qed.

(** *** One character sought and removed *)

Lemma prefix_char (a c : ascii) (s : string) :
  String.prefix (String a "") (String c s) = Ascii.eqb a c.
Proof.
  cbn [String.prefix]. destruct (ascii_dec a c) as [-> | Hne].
  - rewrite Ascii.eqb_refl. now destruct s.
  - symmetry. now apply Ascii.eqb_neq.
Qed.

Lemma contains_char (P : ascii -> bool) (a : ascii) (s : string) :
  contains (String a "") s = true -> all_chars P s = true -> P a = true.
Proof.
  induction s as [| c s IH]; cbn [contains all_chars]; [discriminate |].
  rewrite prefix_char. intros Hc [Hp Hs]%andb_true_iff.
  destruct (Ascii.eqb_spec a c) as [-> | Hne]; [exact Hp |].
  apply IH; assumption.
Qed.

Lemma contains_replace_other (a b : ascii) (s : string) :
  a <> b ->
  contains (String a "") s = true ->
  contains (String a "") (replace s (String b "") "") = true.
Proof.
  intros Hab. unfold replace.
  induction s as [| c s IH]; cbn [contains replace_from]; [discriminate |].
  rewrite !prefix_char. cbn [String.length Nat.sub].
  intros Hc. destruct (Ascii.eqb_spec b c) as [<- | Hbc].
  - cbn [append]. apply IH.
    destruct (Ascii.eqb_spec a b); [contradiction | exact Hc].
  - cbn [contains]. rewrite prefix_char.
    destruct (Ascii.eqb a c); [reflexivity |]. apply IH, Hc.
Qed.

(** X7: the unit letters are capitals and exclude each other: a priced fee whose
    cleaned text has a small [m] or [k], or both [M] and [K], parses to
    0.0. *)
Theorem fee_unit_letters_are_capital_and_exclusive (s : string) :
  contains "m" (fee_clean s) || contains "k" (fee_clean s)
  || (contains "M" (fee_clean s) && contains "K" (fee_clean s)) = true ->
  _parse_transfer_fee (PStr s) = Ok (S754_zero false).
Proof.
  intros H. rewrite parse_fee_unfold.
  destruct (no_fee s); [reflexivity |].
  destruct (float_of_str (float_argument s)) as [x | e] eqn:E.
  - exfalso. apply float_of_str_chars in E.
    assert (Hbad : exists a,
               numeric_char a = false
               /\ contains (String a "") (float_argument s) = true).
    { unfold float_argument.
      destruct (contains "M" (fee_clean s)) eqn:EM.
      - assert (Ha : exists a, numeric_char a = false /\ a <> "M"%char
                               /\ contains (String a "") (fee_clean s) = true).
        { destruct (contains "m" (fee_clean s)) eqn:Em;
            [exists "m"%char; repeat split; [discriminate | exact Em] |].
          destruct (contains "k" (fee_clean s)) eqn:Ek;
            [exists "k"%char; repeat split; [discriminate | exact Ek] |].
          cbn in H. exists "K"%char. repeat split; [discriminate | exact H]. }
        destruct Ha as (a & Hn & Hne & Hc).
        exists a. split; [exact Hn |]. now apply contains_replace_other.
      - assert (Ha : exists a, numeric_char a = false /\ a <> "K"%char
                               /\ contains (String a "") (fee_clean s) = true).
        { destruct (contains "m" (fee_clean s)) eqn:Em;
            [exists "m"%char; repeat split; [discriminate | exact Em] |].
          destruct (contains "k" (fee_clean s)) eqn:Ek;
            [exists "k"%char; repeat split; [discriminate | exact Ek] |].
          cbn in H. discriminate. }
        destruct Ha as (a & Hn & Hne & Hc).
        destruct (contains "K" (fee_clean s)).
        + exists a. split; [exact Hn |]. now apply contains_replace_other.
        + exists a. split; assumption. }
    destruct Hbad as (a & Hn & Hc).
    rewrite (contains_char numeric_char a _ Hc E) in Hn. discriminate.
  - apply float_of_str_raises in E as ->. reflexivity.
Qed.

Lemma fee_unit_letters_witness :
  _parse_transfer_fee (PStr "€ 5 KM") = Ok (S754_zero false).
Proof.
  apply fee_unit_letters_are_capital_and_exclusive. vm_compute; reflexivity.
Defined.

Example fee_unit_letters_examples :
  _parse_transfer_fee (PStr "5m") = Ok (S754_zero false)
  /\ _parse_transfer_fee (PStr "750k") = Ok (S754_zero false)
  /\ _parse_transfer_fee (PStr "5M") = Ok (dyadic 5 0)
  /\ _parse_transfer_fee (PStr "M5") = Ok (dyadic 5 0).
Proof. repeat split; vm_compute; reflexivity. Qed.

(** ** Further properties of the normaliser *)




(** X8: a fee that is no string: one that is false in a condition ([None], 0,
    an empty list) counts as no fee, any other makes the whole call raise
    [AttributeError]. *)
Theorem fee_that_is_no_string
  (rd : readers) (transfers : list pyval) (i : nat)
  (d : list (string * pyval)) (v : pyval) :
  transfers !! i = Some (PDict d) ->
  lookup_key "fee" d = Some v ->
  (forall s, v <> PStr s) ->
  if falsy v
  then forall df,
         process_transfer_data rd transfers = Ok df ->
         exists row, df !! i = Some row
                     /\ lookup_key "transfer_fee" row = Some (PFloat (S754_zero false))
  else process_transfer_data rd transfers = Raise AttributeError.
Proof.
  intros Ht Hfee Hv. destruct (falsy v) eqn:Ef.
  - intros df H.
    destruct (processed_row rd transfers df i _ H Ht)
      as (d' & f & row & [= <-] & Hf & Hrow & Hcell).
    unfold entry in Hf. rewrite Hfee in Hf.
    change (_parse_transfer_fee v = Ok f) in Hf.
    unfold _parse_transfer_fee in Hf. rewrite Ef in Hf. apply Ok_inj in Hf as <-.
    eauto.
  - rewrite process_unfold. pose proof (records_of_cases transfers) as Hc.
    assert (Hbad : forallb well_shaped transfers = false).
    { destruct (forallb well_shaped transfers) eqn:E; [| reflexivity].
      rewrite forallb_forall in E.
      specialize (E (PDict d)
                    ltac:(apply list_elem_of_In, list_elem_of_lookup; eauto)).
      unfold well_shaped, fee_readable in E. rewrite Hfee, Ef in E.
      destruct v; try (now rewrite !andb_false_r in E).
      now destruct (Hv s). }
    rewrite Hbad in Hc. now rewrite Hc.
Qed.

Lemma fee_that_is_no_string_witness :
  process_transfer_data no_readers
    [PDict [("fee", PStr "1M")]; PDict [("fee", PInt 5000000)]]
  = Raise AttributeError.
Proof.
  apply (fee_that_is_no_string no_readers _ 1 [("fee", PInt 5000000)]
           (PInt 5000000)).
  - reflexivity.
  - reflexivity.
  - discriminate.
Defined.

(** *** The types of the converted columns *)




(** A table with one age that does not read as a number: the age column is
    a float column, 0.0 and NaN, and the market value column stays
    integer. *)
Example converted_columns_example :
  column "player_age"
    (convert no_readers
       [flat_record [] (S754_zero false);
        flat_record [("player", PDict [("age", PStr "n/a")])] (S754_zero false)])
  = [PFloat (S754_zero false); PFloat S754_nan]
  /\ column "market_value"
       (convert no_readers
          [flat_record [] (S754_zero false);
           flat_record [("player", PDict [("age", PStr "n/a")])] (S754_zero false)])
     = [PInt 0; PInt 0].
Proof. split; vm_compute; reflexivity. Qed.

(** ** The requests *)

Import Requests Network.

Lemma raise_for_status_cases (response : Response) :
  raise_for_status response = Returned tt
  \/ raise_for_status response = Failed RequestException.
Proof.
  unfold raise_for_status. destruct (_ && _); auto.
Qed.

(** X11: [fetch_transfers] asks for [/transfers] with the league and the season
    and never lets a request failure out: when the call raises a request
    exception, the status is 4xx or 5xx or the body does not decode, it
    returns the empty list.  From an answer it returns what the decoded
    object holds under [transfers], the empty list when the key is absent;
    a decoded body that is no object ends in [AttributeError], and any other
    exception passes through. *)
Theorem fetch_transfers_outcomes (session : Session) (league_id season : string) :
  let reply :=
    session "https://transfermarkt-api.vercel.app/transfers"
      (Some [("league_id", league_id); ("season", season)]) 30 in
  fetch_transfers session league_id season <> Failed RequestException
  /\ (request_failed reply ->
      fetch_transfers session league_id season = Returned (PList []))
  /\ (forall response d,
        answered reply response -> json response = Returned (PDict d) ->
        fetch_transfers session league_id season
        = Returned (entry d "transfers" (PList [])))
  /\ (forall response v,
        answered reply response -> json response = Returned v ->
        (forall d, v <> PDict d) ->
        fetch_transfers session league_id season = Failed (Other AttributeError))
  /\ (forall response e,
        answered reply response -> json response = Failed (Other e) ->
        fetch_transfers session league_id season = Failed (Other e))
  /\ (forall e, reply = Failed (Other e) ->
                fetch_transfers session league_id season = Failed (Other e)).
Proof.
  intros reply.
  assert (Hf : fetch_transfers session league_id season =
               except_request
                 (response ← reply;
                  _ ← raise_for_status response;
                  data ← json response;
                  lift (get data "transfers" (PList [])))
                 (Returned (PList []))) by reflexivity.
  rewrite Hf. clear Hf. unfold request_failed, answered, mbind, outcome_bind.
  split; [| split; [| split; [| split; [| split]]]].
  - destruct reply as [response | [| e]]; [| discriminate | discriminate].
    destruct (raise_for_status_cases response) as [-> | ->]; [| discriminate].
    destruct (json response) as [[] | [| e]]; discriminate.
  - intros [-> | (response & -> & [-> | Hj])]; [reflexivity | reflexivity |].
    destruct (raise_for_status_cases response) as [-> | ->]; [| reflexivity].
    now rewrite Hj.
  - intros response d [-> ->] ->. reflexivity.
  - intros response v [-> ->] -> Hv.
    destruct v; try reflexivity. now destruct (Hv d).
  - intros response e [-> ->] ->. reflexivity.
  - intros e ->. reflexivity.
Qed.

(** X12: [fetch_player_details] asks for [/players/<id>] and returns the decoded
    body as it is; a request failure gives the empty dictionary instead, and
    no request exception gets out. *)
Theorem fetch_player_details_outcomes (session : Session) (player_id : string) :
  let reply :=
    session ("https://transfermarkt-api.vercel.app/players/" ++ player_id)%string
      None 30 in
  fetch_player_details session player_id <> Failed RequestException
  /\ (request_failed reply ->
      fetch_player_details session player_id = Returned (PDict []))
  /\ (forall response v,
        answered reply response -> json response = Returned v ->
        fetch_player_details session player_id = Returned v)
  /\ (forall response e,
        answered reply response -> json response = Failed (Other e) ->
        fetch_player_details session player_id = Failed (Other e))
  /\ (forall e, reply = Failed (Other e) ->
                fetch_player_details session player_id = Failed (Other e)).
Proof.
  intros reply.
  assert (Hf : fetch_player_details session player_id =
               except_request
                 (response ← reply;
                  _ ← raise_for_status response;
                  json response)
                 (Returned (PDict []))) by reflexivity.
  rewrite Hf. clear Hf. unfold request_failed, answered, mbind, outcome_bind.
  split; [| split; [| split; [| split]]].
  - destruct reply as [response | [| e]]; [| discriminate | discriminate].
    destruct (raise_for_status_cases response) as [-> | ->]; [| discriminate].
    destruct (json response) as [v | [| e]]; discriminate.
  - intros [-> | (response & -> & [-> | Hj])]; [reflexivity | reflexivity |].
    destruct (raise_for_status_cases response) as [-> | ->]; [| reflexivity].
    now rewrite Hj.
  - intros response v [-> ->] ->. reflexivity.
  - intros response e [-> ->] ->. reflexivity.
  - intros e ->. reflexivity.
Qed.

(** A server that answers 503 to everything, and one that answers 200 with
    an object without the key. *)
Example fetch_examples :
  fetch_transfers
    (fun _ _ _ => Returned {| status_code := 503; json := Returned (PDict []) |})
    "GB1" "2025" = Returned (PList [])
  /\ fetch_transfers
       (fun _ _ _ =>
          Returned {| status_code := 200;
                      json := Returned (PDict [("detail", PStr "none")]) |})
       "GB1" "2025" = Returned (PList [])
  /\ fetch_transfers
       (fun _ _ _ => Returned {| status_code := 200; json := Returned (PList []) |})
       "GB1" "2025" = Failed (Other AttributeError)
  /\ fetch_player_details
       (fun _ _ _ => Failed RequestException) "1" = Returned (PDict []).
Proof. repeat split. Qed.

(** ** The median fee *)

Lemma insert_asc_perm (x : float) (l : list float) : insert_asc x l ≡ₚ x :: l.
Proof.
  induction l as [| y l IH]; cbn [insert_asc]; [reflexivity |].
  destruct (flt y x); [| reflexivity].
  rewrite IH. apply Permutation_swap.
Qed.

Lemma sort_asc_perm (l : list float) : sort_asc l ≡ₚ l.
Proof.
  unfold sort_asc. induction l as [| x l IH]; cbn [foldr]; [reflexivity |].
  now rewrite insert_asc_perm, IH.
Qed.

Lemma insert_asc_sorted (x : float) (l : list float) :
  isna x = false -> Forall (fun y => isna y = false) l ->
  StronglySorted (fun a b => fle a b = true) l ->
  StronglySorted (fun a b => fle a b = true) (insert_asc x l).
Proof.
  intros Hx Hl Hs. induction Hs as [| y l Hs IH Hy]; cbn [insert_asc].
  - repeat constructor.
  - apply Forall_cons in Hl as [Hyv Hl].
    destruct (flt y x) eqn:E.
    + constructor; [now apply IH |].
      rewrite insert_asc_perm. constructor; [| exact Hy].
      apply flt_fle, E.
    + assert (Hxy : fle x y = true) by now apply fle_of_not_flt.
      constructor; [now constructor |]. constructor; [exact Hxy |].
      eapply Forall_impl; [exact Hy |].
      intros z Hz. eapply fle_trans; eauto.
Qed.

Lemma sort_asc_sorted (l : list float) :
  Forall (fun y => isna y = false) l ->
  StronglySorted (fun a b => fle a b = true) (sort_asc l).
Proof.
  unfold sort_asc. induction 1 as [| x l Hx Hl IH]; cbn [foldr]; [constructor |].
  apply insert_asc_sorted; [exact Hx | | exact IH].
  fold (sort_asc l). now rewrite sort_asc_perm.
Qed.

Lemma dropna_values (col : list float) :
  Forall (fun y => isna y = false) (dropna col).
Proof.
  apply Forall_forall. intros y [Hy _]%list_elem_of_filter.
  now destruct (isna y).
Qed.

(** X6: the median is the middle of the fees in ascending order: with an odd
    number of fees the one with as many fees before as after it, with an
    even number half the sum of the two in the middle, and NaN without a
    fee. *)
Theorem median_fee_is_the_middle (df : list FlatTransfer) :
  df <> [] ->
  exists s,
    generate_transfer_summary df = Ok (FullReport s)
    /\ ((dropna (map transfer_fee df) = [] /\ median_fee s = S754_nan)
        \/ (exists lower m upper,
              lower ++ m :: upper ≡ₚ dropna (map transfer_fee df)
              /\ StronglySorted (fun a b => fle a b = true) (lower ++ m :: upper)
              /\ length lower = length upper
              /\ median_fee s = m)
        \/ (exists lower a b upper,
              lower ++ a :: b :: upper ≡ₚ dropna (map transfer_fee df)
              /\ StronglySorted (fun a b => fle a b = true)
                   (lower ++ a :: b :: upper)
              /\ length lower = length upper
              /\ median_fee s = fdiv (fadd a b) (float_of_int 2))).
Proof.
  intros Hdf. destruct (generate_summary_with df Hdf) as (p & f & t & Hs).
  eexists. split; [exact Hs |].
  cbn [summary_with median_fee]. unfold median.
  set (v := dropna (map transfer_fee df)).
  pose proof (sort_asc_perm v) as Hperm.
  pose proof (sort_asc_sorted v (dropna_values _)) as Hsorted.
  set (L := sort_asc v) in *.
  assert (Hlen : length L = length v) by now rewrite Hperm.
  destruct (length L) as [| n'] eqn:En.
  { left. split; [| reflexivity].
    symmetry in Hlen. now apply nil_length_inv in Hlen. }
  set (n := S n') in *.
  destruct (Nat.even n) eqn:Eev.
  - right. right.
    apply Nat.even_spec in Eev as [k Hk].
    assert (Hdiv : (n / 2 = k)%nat)
      by (rewrite Hk, Nat.mul_comm; apply Nat.div_mul; lia).
    rewrite Hdiv.
    destruct (lookup_lt_is_Some_2 L (k - 1)) as [a Ha]; [lia |].
    destruct (lookup_lt_is_Some_2 L k) as [b Hb]; [lia |].
    rewrite !nth_lookup, Ha, Hb. cbn [default].
    assert (HL : L = take (k - 1) L ++ a :: b :: drop (S k) L).
    { rewrite <- (take_drop_middle L (k - 1) a Ha) at 1. do 2 f_equal.
      replace (S (k - 1)) with k by lia.
      now apply drop_S. }
    exists (take (k - 1) L), a, b, (drop (S k) L).
    rewrite <- HL. split; [exact Hperm |]. split; [exact Hsorted |].
    split; [| reflexivity].
    rewrite length_take, length_drop. lia.
  - right. left.
    assert (Hodd : Nat.odd n = true) by (unfold Nat.odd; now rewrite Eev).
    apply Nat.odd_spec in Hodd as [k Hk].
    assert (Hdiv : (n / 2 = k)%nat).
    { rewrite Hk, Nat.add_comm, Nat.mul_comm, Nat.div_add by lia. reflexivity. }
    rewrite Hdiv.
    destruct (lookup_lt_is_Some_2 L k) as [m Hm]; [lia |].
    rewrite nth_lookup, Hm. cbn [default].
    exists (take k L), m, (drop (S k) L).
    rewrite (take_drop_middle L k m Hm).
    split; [exact Hperm |]. split; [exact Hsorted |]. split; [| reflexivity].
    rewrite length_take, length_drop. lia.
Qed.

Lemma median_fee_witness :
  exists s,
    generate_transfer_summary
      [row "Ada" "X" "Y" (dyadic 9 0) None; row "Bob" "Y" "Z" S754_nan None;
       row "Cyd" "Z" "X" (dyadic 2 0) None; row "Dee" "X" "Z" (dyadic 5 0) None]
    = Ok (FullReport s)
    /\ ((dropna [dyadic 9 0; S754_nan; dyadic 2 0; dyadic 5 0] = []
         /\ median_fee s = S754_nan)
        \/ (exists lower m upper,
              lower ++ m :: upper ≡ₚ dropna [dyadic 9 0; S754_nan; dyadic 2 0; dyadic 5 0]
              /\ StronglySorted (fun a b => fle a b = true) (lower ++ m :: upper)
              /\ length lower = length upper
              /\ median_fee s = m)
        \/ (exists lower a b upper,
              lower ++ a :: b :: upper
              ≡ₚ dropna [dyadic 9 0; S754_nan; dyadic 2 0; dyadic 5 0]
              /\ StronglySorted (fun a b => fle a b = true)
                   (lower ++ a :: b :: upper)
              /\ length lower = length upper
              /\ median_fee s = fdiv (fadd a b) (float_of_int 2))).
Proof.
  apply (median_fee_is_the_middle
           [row "Ada" "X" "Y" (dyadic 9 0) None; row "Bob" "Y" "Z" S754_nan None;
            row "Cyd" "Z" "X" (dyadic 2 0) None; row "Dee" "X" "Z" (dyadic 5 0) None]).
  discriminate.
Defined.

Example median_fee_example :
  exists s,
    generate_transfer_summary
      [row "Ada" "X" "Y" (dyadic 9 0) None; row "Bob" "Y" "Z" S754_nan None;
       row "Cyd" "Z" "X" (dyadic 2 0) None; row "Dee" "X" "Z" (dyadic 5 0) None]
    = Ok (FullReport s)
    /\ median_fee s = dyadic 5 0.
Proof. eexists. split; vm_compute; reflexivity. Qed.
